(** * analiz.py: the interactive forecasting loop

    A shallow embedding of the interactive part of [src/analiz.py]: the
    input helpers [ask_choice], [ask_yesno] and [ask_int], the allowed
    target-year range, the subject matcher, the forecast dispatcher and
    the [while True] menu loop.

    Conventions.
    - Python [int] is [Z]; Python [str] is [string] (the UTF-8 bytes of the
      text: equality, substring and ordering of two texts are those of
      their encodings).
    - The builtins [str.lower], [str.strip], [int(str)] and the Prophet
      library are not code of this repository; they are the fields of the
      class [PyRuntime] and every theorem holds for any instance.
    - The numeric values handled by numpy and pandas are read as exact
      rationals ([Q]); [np.polyfit(x, y, 1)] is the closed form of the
      least-squares line.
    - Console interaction is a function of the list of answers still to
      be read; it returns the events it produced (prompts, prints, model
      fits, saved figures) with its result. *)

From Stdlib Require Import List String Ascii Bool ZArith QArith Qround Lia Lqa.
From Stdlib Require Import Permutation Sorted.
Import ListNotations.

Local Open Scope string_scope.
Local Open Scope list_scope.
Local Open Scope Z_scope.

(** ** Builtins and libraries used by the script *)

Class PyRuntime : Type := {
  (** [s.lower()] *)
  lower : string -> string;
  (** [s.strip()] *)
  strip : string -> string;
  (** [int(s)]; [None] stands for [ValueError] *)
  int_of_str : string -> option Z;
  (** [int("")] raises [ValueError] *)
  int_of_str_empty : int_of_str "" = None;
  (** [Prophet(...).fit(history)] followed by
      [predict(make_future_dataframe(periods, freq='YS'))]: the rows
      (year of [ds], [yhat]) of the forecast frame *)
  prophet_predict : list (Z * Z) -> Z -> list (Z * Q)
}.

(** ** Standard parameters (lines 21-31) *)

Definition YEAR_MIN : Z := 2016.
Definition YEAR_MAX : Z := 2024.
Definition TARGET_DEFAULT : Z := 2026.
Definition MODEL_DEFAULT : string := "prophet".

(** ** Text helpers *)

(** [needle in hay] on Python strings. *)
Fixpoint contains (needle hay : string) : bool :=
  if String.prefix needle hay then true
  else match hay with
       | EmptyString => false
       | String _ rest => contains needle rest
       end.

(** [s.split(",")] *)
Fixpoint split_comma (s : string) : list string :=
  match s with
  | EmptyString => [EmptyString]
  | String c rest =>
      if Ascii.eqb c ","%char then EmptyString :: split_comma rest
      else match split_comma rest with
           | piece :: pieces => String c piece :: pieces
           | [] => [String c EmptyString]
           end
  end.

(** ** Dictionaries

    A Python [dict] with string keys: insertion ordered, one entry per
    key; assigning to an existing key keeps the position of the key and
    replaces the value. *)

Definition dict (V : Type) : Type := list (string * V).

Fixpoint dict_set {V} (d : dict V) (k : string) (v : V) : dict V :=
  match d with
  | [] => [(k, v)]
  | (k', v') :: rest =>
      if String.eqb k' k then (k', v) :: rest else (k', v') :: dict_set rest k v
  end.

Fixpoint dict_get {V} (d : dict V) (k : string) : option V :=
  match d with
  | [] => None
  | (k', v') :: rest => if String.eqb k' k then Some v' else dict_get rest k
  end.

Definition dict_keys {V} (d : dict V) : list string := map fst d.

(** [{key(x): value(x) for x in xs}] *)
Definition dict_comprehension {A V} (key : A -> string) (value : A -> V)
    (xs : list A) : dict V :=
  fold_left (fun d x => dict_set d (key x) (value x)) xs [].

(** ** The aggregated yearly table [df_alan_yillik] (query 5) *)

Record row : Type := mkRow {
  Yil : Z;
  Alan : string;
  YayinSayisi : Z
}.

Definition frame : Type := list row.

(** [Series.unique()]: distinct values in order of first appearance. *)
Definition unique (xs : list string) : list string :=
  fold_left (fun seen x => if existsb (String.eqb x) seen then seen
                           else seen ++ [x]) xs [].

(** [df["Yil"].max()]; [None] is the [NaN] of an empty column. *)
Definition Yil_max (df : frame) : option Z :=
  match df with
  | [] => None
  | r :: rest => Some (fold_left Z.max (map Yil rest) (Yil r))
  end.

(** Lines 296-299.  [int(NaN)] raises, hence the option. *)
Definition DATA_LAST_YEAR (df : frame) : option Z := Yil_max df.
Definition ALLOWED_MIN_YEAR (data_last_year : Z) : Z := data_last_year + 1.
Definition ALLOWED_MAX_YEAR (data_last_year : Z) : Z := data_last_year + 100.

(** ** Subject matcher *)

Section Matcher.
Context {rt : PyRuntime}.

(** Lines 385-386. *)
Definition alan_mapping (df : frame) : dict string :=
  dict_comprehension lower (fun alan => alan) (unique (map Alan df)).

(** Inner loop of lines 435-442: the key at which the loop breaks. *)
Fixpoint first_user_key (kullanici_alani : string) (keys : list string)
    : option string :=
  match keys with
  | [] => None
  | veri_alani :: rest =>
      if String.eqb kullanici_alani veri_alani then Some veri_alani
      else if contains kullanici_alani veri_alani then Some veri_alani
      else first_user_key kullanici_alani rest
  end.

(** Inner loop of lines 407-410. *)
Fixpoint first_top_key (alan_lower : string) (keys : list string)
    : option string :=
  match keys with
  | [] => None
  | veri_alani :: rest =>
      if String.eqb alan_lower veri_alani || contains alan_lower veri_alani
      then Some veri_alani
      else first_top_key alan_lower rest
  end.

(** The state the matching loops work on. *)
Record store : Type := mkStore {
  st_df : frame;
  st_mapping : dict string;
  st_eslesen : list string
}.

(** [eslesen_alanlar.append(alan_mapping[veri_alani])] *)
Definition append_match (st : store) (veri_alani : option string) : store :=
  match veri_alani with
  | None => st
  | Some k =>
      match dict_get (st_mapping st) k with
      | Some canonical =>
          mkStore (st_df st) (st_mapping st) (st_eslesen st ++ [canonical])
      | None => st
      end
  end.

(** One pass of the outer loop, lines 434-442. *)
Definition match_user_step (st : store) (kullanici_alani : string) : store :=
  append_match st
    (first_user_key kullanici_alani (dict_keys (st_mapping st))).

(** One pass of the outer loop, lines 405-410. *)
Definition match_top_step (st : store) (alan : string) : store :=
  append_match st (first_top_key (lower alan) (dict_keys (st_mapping st))).

(** The matcher on one token: what one pass appends, if anything. *)
Definition matcher (m : dict string) (token : string) : option string :=
  match first_user_key token (dict_keys m) with
  | Some k => dict_get m k
  | None => None
  end.

(** Lines 433-442. *)
Definition match_user (df : frame) (m : dict string)
    (top_alanlar_tahmin : list string) : store :=
  fold_left match_user_step top_alanlar_tahmin (mkStore df m []).

(** Lines 404-410. *)
Definition match_top (df : frame) (m : dict string)
    (top_alanlar_tahmin : list string) : store :=
  fold_left match_top_step top_alanlar_tahmin (mkStore df m []).

(** Lines 423-424. *)
Definition user_tokens (alan_input : string) : list string :=
  map (fun a => lower (strip a))
      (filter (fun a => negb (String.eqb (strip a) ""))
              (split_comma alan_input)).
End Matcher.

(** ** Console model *)

(** What one call of [input()] does: it returns a line, or it raises
    [KeyboardInterrupt] / [EOFError]. *)
Inductive input_ev : Type :=
| Line (s : string)
| Interrupt.

(** The prompts of the script, by the place that asks. *)
Inductive prompt : Type :=
| PChoice                     (* line 382 *)
| PShowList                   (* line 412 *)
| PSubjects                   (* line 419 *)
| PYear (lo hi default : Z)   (* line 453 *)
| PModel                      (* line 457 *)
| PSave                       (* line 527 *)
| PRepeat.                    (* line 558 *)

(** The printed lines, by the place that prints. *)
Inductive message : Type :=
| MSeparator                              (* print("-" * 60) *)
| MMenuTitle | MMenuOption1 | MMenuOption2 (* lines 135-137 *)
| MChoiceCancelled                        (* line 73 *)
| MInvalidChoice (options : list string)  (* line 80 *)
| MYesNoCancelled                         (* line 94 *)
| MInvalidYesNo                           (* line 100 *)
| MIntCancelled                           (* line 107 *)
| MInvalidInt                             (* line 115 *)
| MAtLeast (min_val : Z)                  (* line 118 *)
| MAtMost (max_val : Z)                   (* line 121 *)
| MTop10Title                             (* line 401 *)
| MTop10Item (i : nat) (alan : string)    (* line 403 *)
| MAllSubjectsTitle                       (* line 415 *)
| MAllSubjects                            (* line 417 *)
| MNeedSubject                            (* line 422 *)
| MInvalidSelection                       (* line 426 *)
| MNoMatch                                (* line 445 *)
| MSubjectNotFound (alan : string)        (* line 464 *)
| MNotEnoughData (alan : string)          (* line 473 *)
| MNotEnoughYears (alan : string)         (* line 482 *)
| MNoForecastRow (alan : string) (yil : Z) (* line 510 *)
| MForecast (alan : string) (yil sonuc : Z) (* line 515 *)
| MNoForecasts                            (* line 524 *)
| MSaved (alan : string) (yil : Z)        (* line 549 *)
| MNotSaved                               (* line 551 *)
| MCompleted                              (* line 554 *)
| MRestarting                             (* line 560 *)
| MTerminated.                            (* line 564 *)

Inductive event : Type :=
| Prompt (p : prompt)                 (* input(prompt) shows the prompt *)
| Print (m : message)
| Sleep                               (* time.sleep *)
| FitLm (alan : string)               (* np.polyfit, line 485 *)
| FitProphet (alan : string)          (* model.fit, line 499 *)
| SaveFig (alan : string) (yil : Z).  (* plt.savefig, line 547 *)

(** Why a run stops without a value: it waits for input that the list of
    answers does not hold, it called [exit()], or an exception escaped. *)
Inductive halt : Type := Blocked | Exited | Crashed.

Inductive outcome (A : Type) : Type :=
| Done (tr : list event) (a : A) (rest : list input_ev)
| Halt (tr : list event) (why : halt).
Arguments Done {A} tr a rest.
Arguments Halt {A} tr why.

Definition console (A : Type) : Type := list input_ev -> outcome A.

Definition emit {A} (tr : list event) (o : outcome A) : outcome A :=
  match o with
  | Done tr' a rest => Done (tr ++ tr') a rest
  | Halt tr' why => Halt (tr ++ tr') why
  end.

Definition ret {A} (a : A) : console A := fun ins => Done [] a ins.

Definition bind {A B} (m : console A) (k : A -> console B) : console B :=
  fun ins =>
    match m ins with
    | Done tr a rest => emit tr (k a rest)
    | Halt tr why => Halt tr why
    end.

Definition say (tr : list event) : console unit := fun ins => Done tr tt ins.

Definition stop {A} (why : halt) : console A := fun _ => Halt [] why.

Notation "x <- m ;; k" := (bind m (fun x => k))
  (at level 61, m at next level, right associativity).
Notation "m ;;; k" := (bind m (fun _ => k))
  (at level 61, right associativity).

(** The events of an outcome. *)
Definition trace {A} (o : outcome A) : list event :=
  match o with
  | Done tr _ _ => tr
  | Halt tr _ => tr
  end.

(** ** Input helpers (lines 63-123) *)

Section Helpers.
Context {rt : PyRuntime}.

(** The [while True] of [ask_choice], once [opts_lower] is built. *)
Fixpoint ask_choice_loop (p : prompt) (options : list string)
    (default : option string) (opts_lower : dict string)
    (ins : list input_ev) : outcome string :=
  match ins with
  | [] => Halt [Prompt p] Blocked
  | Interrupt :: rest =>
      emit [Prompt p; Print MChoiceCancelled]
           (ask_choice_loop p options default opts_lower rest)
  | Line s :: rest =>
      let raw := strip s in
      match (if String.eqb raw "" then default else None) with
      | Some d => Done [Prompt p] d rest
      | None =>
          let key := lower raw in
          match dict_get opts_lower key with
          | Some o => Done [Prompt p] o rest
          | None =>
              emit [Prompt p; Print (MInvalidChoice options)]
                   (ask_choice_loop p options default opts_lower rest)
          end
      end
  end.

Definition ask_choice (p : prompt) (options : list string)
    (default : option string) : console string :=
  ask_choice_loop p options default
    (dict_comprehension lower (fun o => o) options).

(** The [mapping] of [ask_yesno]. *)
Definition yesno_mapping : dict string :=
  [("e", "evet"); ("evet", "evet"); ("y", "evet"); ("yes", "evet");
   ("h", "hayır"); ("hayır", "hayır"); ("n", "hayır"); ("no", "hayır")].

Fixpoint ask_yesno (p : prompt) (default : option string)
    (ins : list input_ev) : outcome string :=
  match ins with
  | [] => Halt [Prompt p] Blocked
  | Interrupt :: rest =>
      emit [Prompt p; Print MYesNoCancelled] (ask_yesno p default rest)
  | Line s :: rest =>
      let raw := lower (strip s) in
      match (if String.eqb raw "" then default else None) with
      | Some d => Done [Prompt p] d rest
      | None =>
          match dict_get yesno_mapping raw with
          | Some answer => Done [Prompt p] answer rest
          | None =>
              emit [Prompt p; Print MInvalidYesNo] (ask_yesno p default rest)
          end
      end
  end.

(** Lines 117-119: the warning for a value under [min_val], if any. *)
Definition too_small (min_val : option Z) (val : Z) : option message :=
  match min_val with
  | Some lo => if val <? lo then Some (MAtLeast lo) else None
  | None => None
  end.

(** Lines 120-122: the warning for a value over [max_val], if any. *)
Definition too_large (max_val : option Z) (val : Z) : option message :=
  match max_val with
  | Some hi => if val >? hi then Some (MAtMost hi) else None
  | None => None
  end.

Fixpoint ask_int (p : prompt) (default min_val max_val : option Z)
    (ins : list input_ev) : outcome Z :=
  match ins with
  | [] => Halt [Prompt p] Blocked
  | Interrupt :: rest =>
      emit [Prompt p; Print MIntCancelled]
           (ask_int p default min_val max_val rest)
  | Line s :: rest =>
      let raw := strip s in
      match (if String.eqb raw "" then default else None) with
      | Some d => Done [Prompt p] d rest
      | None =>
          match int_of_str raw with
          | None =>
              emit [Prompt p; Print MInvalidInt]
                   (ask_int p default min_val max_val rest)
          | Some val =>
              match too_small min_val val with
              | Some warning =>
                  emit [Prompt p; Print warning]
                       (ask_int p default min_val max_val rest)
              | None =>
                  match too_large max_val val with
                  | Some warning =>
                      emit [Prompt p; Print warning]
                           (ask_int p default min_val max_val rest)
                  | None => Done [Prompt p] val rest
                  end
              end
          end
      end
  end.

(** Lines 126-138, with [CLEAR_SCREEN = False]. *)
Definition show_prediction_menu : console unit :=
  say [Print MSeparator; Print MMenuTitle; Print MMenuOption1;
       Print MMenuOption2; Print MSeparator].

(** Lines 452-454. *)
Definition default_year (allowed_min : Z) : Z :=
  Z.max TARGET_DEFAULT allowed_min.

Definition ask_hedef_yil (allowed_min allowed_max : Z) : console Z :=
  let _default_year := default_year allowed_min in
  ask_int (PYear allowed_min allowed_max _default_year)
          (Some _default_year) (Some allowed_min) (Some allowed_max).
End Helpers.

(** ** Numeric helpers *)

Definition Qsum (l : list Q) : Q := fold_right Qplus 0%Q l.

(** [np.polyfit(x, y, 1)]: [(slope, intercept)] of the least-squares
    line through the points. *)
Definition polyfit1 (x y : list Q) : Q * Q :=
  let n := inject_Z (Z.of_nat (List.length x)) in
  let sx := Qsum x in
  let sy := Qsum y in
  let sxx := Qsum (map (fun a => a * a) x)%Q in
  let sxy := Qsum (map (fun p => fst p * snd p) (combine x y))%Q in
  let slope := ((n * sxy - sx * sy) / (n * sxx - sx * sx))%Q in
  (slope, ((sy - slope * sx) / n)%Q).

(** [np.polyval(coef, t)] for two coefficients. *)
Definition polyval1 (coef : Q * Q) (t : Q) : Q :=
  (fst coef * t + snd coef)%Q.

(** Sum of squared residuals of the line [a * x + b]. *)
Definition sq_error (a b : Q) (x y : list Q) : Q :=
  Qsum (map (fun p => (a * fst p + b - snd p) * (a * fst p + b - snd p))
            (combine x y))%Q.

(** [max(0.0, v)] *)
Definition clamp0 (v : Q) : Q :=
  if Qlt_le_dec 0 v then v else 0%Q.

(** [round(v)] of a float: nearest integer, ties to the even one. *)
Definition py_round (v : Q) : Z :=
  let f := Qfloor v in
  match (v - inject_Z f ?= 1 # 2)%Q with
  | Lt => f
  | Gt => f + 1
  | Eq => if Z.even f then f else f + 1
  end.

(** [np.unique(years)] *)
Definition np_unique (years : list Z) : list Z := nodup Z.eq_dec years.

(** ** Forecast dispatcher (lines 459-521) *)

(** The [forecast] component of a result. *)
Inductive artifact : Type :=
| LmArtifact (years y_vals : list Q) (coef : Q * Q)
| ProphetArtifact (forecast : list (Z * Q)).

(** One entry of [tahmin_sonuclari]. *)
Record tahmin : Type := mkTahmin {
  t_alan : string;
  t_yil : Z;
  t_sonuc : Z;
  t_forecast : artifact;
  t_model_sec : string
}.

Section Forecast.
Context {rt : PyRuntime}.

(** [df_alan_yillik[df_alan_yillik["Alan"] == alan]] *)
Definition rows_of (df : frame) (alan : string) : frame :=
  filter (fun r => String.eqb (Alan r) alan) df.

(** Lines 478-494. *)
Definition lm_prediction (years y_vals : list Q) (hedef_yil : Z) : Q :=
  clamp0 (polyval1 (polyfit1 years y_vals) (inject_Z hedef_yil)).

(** The body of the [for alan in eslesen_alanlar] loop: the events of
    one pass and the entry it appends, if any. *)
Definition forecast_one (df : frame) (hedef_yil : Z) (model_sec : string)
    (alan : string) : list event * option tahmin :=
  let matching_alan := rows_of df alan in
  match matching_alan with
  | [] => ([Print (MSubjectNotFound alan)], None)
  | _ :: _ =>
      let df_prophet := map (fun r => (Yil r, YayinSayisi r)) matching_alan in
      if (Z.of_nat (List.length df_prophet) <? 2) then
        ([Print (MNotEnoughData alan)], None)
      else if String.eqb model_sec "lm" then
        let years := map (fun p => inject_Z (fst p)) df_prophet in
        let y_vals := map (fun p => inject_Z (snd p)) df_prophet in
        if (Z.of_nat (List.length (np_unique (map fst df_prophet))) <? 2) then
          ([Print (MNotEnoughYears alan)], None)
        else
          let coef := polyfit1 years y_vals in
          let y_pred := clamp0 (polyval1 coef (inject_Z hedef_yil)) in
          let tahmin_sonucu := py_round y_pred in
          ([FitLm alan; Print (MForecast alan hedef_yil tahmin_sonucu);
            Print MSeparator; Print MSeparator],
           Some (mkTahmin alan hedef_yil tahmin_sonucu
                          (LmArtifact years y_vals coef) model_sec))
      else
        let son_yil := fold_left Z.max (map fst df_prophet)
                                 (match df_prophet with
                                  | p :: _ => fst p
                                  | [] => 0
                                  end) in
        let periods := hedef_yil - son_yil in
        let forecast := map (fun p => (fst p, clamp0 (snd p)))
                            (prophet_predict df_prophet periods) in
        match filter (fun p => fst p =? hedef_yil) forecast with
        | [] => ([FitProphet alan; Print (MNoForecastRow alan hedef_yil)],
                 None)
        | p :: _ =>
            let tahmin_sonucu := py_round (snd p) in
            ([FitProphet alan;
              Print (MForecast alan hedef_yil tahmin_sonucu);
              Print MSeparator; Print MSeparator],
             Some (mkTahmin alan hedef_yil tahmin_sonucu
                            (ProphetArtifact forecast) model_sec))
        end
  end.

(** The whole loop: events in order, and [tahmin_sonuclari]. *)
Fixpoint forecast_all (df : frame) (hedef_yil : Z) (model_sec : string)
    (eslesen_alanlar : list string) : list event * list tahmin :=
  match eslesen_alanlar with
  | [] => ([], [])
  | alan :: rest =>
      let (tr, entry) := forecast_one df hedef_yil model_sec alan in
      let (tr', tahmin_sonuclari) :=
        forecast_all df hedef_yil model_sec rest in
      (tr ++ tr',
       match entry with
       | Some t => t :: tahmin_sonuclari
       | None => tahmin_sonuclari
       end)
  end.
End Forecast.

(** ** Top-10 selection (lines 389-399) *)

(** Keys of a [groupby]: sorted. *)
Fixpoint insert_label (a : string) (l : list string) : list string :=
  match l with
  | [] => [a]
  | b :: rest => if String.leb a b then a :: l else b :: insert_label a rest
  end.

Definition sort_labels (l : list string) : list string :=
  fold_right insert_label [] l.

(** [.mean()] of a group of counts. *)
Definition mean (counts : list Z) : Q :=
  (inject_Z (fold_right Z.add 0%Z counts)
   / inject_Z (Z.of_nat (List.length counts)))%Q.

(** [nlargest]: descending by value, equal values in their input order. *)
Fixpoint insert_desc (p : string * Q) (l : list (string * Q))
    : list (string * Q) :=
  match l with
  | [] => [p]
  | q :: rest =>
      if Qlt_le_dec (snd p) (snd q) then q :: insert_desc p rest else p :: l
  end.

Definition nlargest (n : nat) (l : list (string * Q)) : list (string * Q) :=
  firstn n (fold_right insert_desc [] l).

Definition top_alanlar (df : frame) : list string :=
  let df_son_5yil :=
    match Yil_max df with
    | Some last => filter (fun r => Yil r >=? last - 4) df
    | None => []
    end in
  let groups := sort_labels (unique (map Alan df_son_5yil)) in
  let means :=
    map (fun alan => (alan, mean (map YayinSayisi (rows_of df_son_5yil alan))))
        groups in
  map fst (nlargest 10 means).

(** ** The menu loop (lines 380-566) *)

Section Loop.
Context {rt : PyRuntime}.

(** Lines 402-403. *)
Fixpoint print_top (i : nat) (alanlar : list string) : list event :=
  match alanlar with
  | [] => []
  | alan :: rest => Print (MTop10Item i alan) :: print_top (S i) rest
  end.

(** Lines 418-422: [input] is not guarded here, an interrupt escapes. *)
Fixpoint ask_alan_input (ins : list input_ev) : outcome string :=
  match ins with
  | [] => Halt [Prompt PSubjects] Blocked
  | Interrupt :: _ => Halt [Prompt PSubjects] Crashed
  | Line s :: rest =>
      let alan_input := strip s in
      if String.eqb alan_input "" then
        emit [Prompt PSubjects; Print MNeedSubject] (ask_alan_input rest)
      else Done [Prompt PSubjects] alan_input rest
  end.

(** Lines 388-442: subject selection and matching.  [None] is the
    [else] branch of line 425, which goes back to the menu. *)
Definition select_subjects (df : frame) (m : dict string) (secim : string)
    : console (option (list string)) :=
  if String.eqb secim "1" then
    let top_alanlar_tahmin := top_alanlar df in
    say ([Print MSeparator; Print MTop10Title]
         ++ print_top 1 top_alanlar_tahmin) ;;;
    ret (Some (st_eslesen (match_top df m top_alanlar_tahmin)))
  else if String.eqb secim "2" then
    alan_goster <- ask_yesno PShowList (Some "hayır") ;;
    (if String.eqb alan_goster "evet" then
       say [Print MSeparator; Print MAllSubjectsTitle; Print MSeparator;
            Print MAllSubjects]
     else ret tt) ;;;
    alan_input <- ask_alan_input ;;
    let top_alanlar_tahmin := user_tokens alan_input in
    ret (Some (st_eslesen (match_user df m top_alanlar_tahmin)))
  else
    say [Print MInvalidSelection; Print MSeparator; Sleep] ;;;
    ret None.

(** Lines 381-442: menu, choice, mapping, selection and matching. *)
Definition matching_stage (df : frame) : console (option (list string)) :=
  show_prediction_menu ;;;
  secim <- ask_choice PChoice ["1"; "2"] None ;;
  let m := alan_mapping df in
  select_subjects df m secim.

(** Lines 450-521: year, model, then the dispatcher. *)
Definition forecast_stage (df : frame) (allowed_min allowed_max : Z)
    (eslesen_alanlar : list string) : console (list tahmin) :=
  say [Print MSeparator] ;;;
  hedef_yil <- ask_hedef_yil allowed_min allowed_max ;;
  model_sec <- ask_choice PModel ["prophet"; "lm"] (Some MODEL_DEFAULT) ;;
  let (tr, tahmin_sonuclari) :=
    forecast_all df hedef_yil model_sec eslesen_alanlar in
  say tr ;;;
  ret tahmin_sonuclari.

(** Lines 529-549. *)
Definition save_charts (tahmin_sonuclari : list tahmin) : list event :=
  flat_map (fun t => [SaveFig (t_alan t) (t_yil t);
                      Print (MSaved (t_alan t) (t_yil t))])
           tahmin_sonuclari.

(** Lines 523-552. *)
Definition save_stage (tahmin_sonuclari : list tahmin) : console unit :=
  match tahmin_sonuclari with
  | [] => say [Print MNoForecasts; Print MSeparator]
  | _ :: _ =>
      kaydet <- ask_yesno PSave (Some "hayır") ;;
      if String.eqb kaydet "evet" then say (save_charts tahmin_sonuclari)
      else say [Print MNotSaved; Print MSeparator]
  end.

(** Lines 558-566.  A value is the [continue] of line 562. *)
Definition repeat_prompt : console unit :=
  tekrar <- ask_yesno PRepeat (Some "hayır") ;;
  if String.eqb tekrar "evet" then say [Print MRestarting; Sleep]
  else say [Print MTerminated; Print MSeparator] ;;; stop Exited.

(** Lines 554-566. *)
Definition repeat_stage : console unit :=
  say [Print MCompleted; Print MSeparator] ;;; repeat_prompt.

(** Lines 523-566. *)
Definition closing_stage (tahmin_sonuclari : list tahmin) : console unit :=
  save_stage tahmin_sonuclari ;;; repeat_stage.

(** One pass of the [while True] of line 380.  A value means the pass
    ended in a [continue]: the next pass shows the menu again. *)
Definition loop_body (df : frame) (allowed_min allowed_max : Z)
    : console unit :=
  sel <- matching_stage df ;;
  match sel with
  | None => ret tt
  | Some [] => say [Print MNoMatch; Print MSeparator; Sleep]
  | Some (alan :: rest) =>
      tahmin_sonuclari <-
        forecast_stage df allowed_min allowed_max (alan :: rest) ;;
      closing_stage tahmin_sonuclari
  end.

(** [passes] passes of the loop. *)
Fixpoint menu_loop (passes : nat) (df : frame) (allowed_min allowed_max : Z)
    : console unit :=
  match passes with
  | O => ret tt
  | S n =>
      loop_body df allowed_min allowed_max ;;;
      menu_loop n df allowed_min allowed_max
  end.

(** Lines 296-299 followed by the loop. *)
Definition program (passes : nat) (df : frame) : console unit :=
  match DATA_LAST_YEAR df with
  | None => stop Crashed
  | Some last =>
      menu_loop passes df (ALLOWED_MIN_YEAR last) (ALLOWED_MAX_YEAR last)
  end.
End Loop.

(** ** Specification vocabulary *)

(** [t] occurs in [k]. *)
Definition substring_of (t k : string) : Prop :=
  exists before after, k = (before ++ t ++ after)%string.

(** The predicate of the matcher: lines 436 and 440, or line 408. *)
Definition satisfies (token key : string) : Prop :=
  token = key \/ substring_of token key.

(** [k] is the first element of [keys] that has property [P]. *)
Definition first_such (P : string -> Prop) (keys : list string) (k : string)
    : Prop :=
  exists before after,
    keys = before ++ k :: after /\ (forall k', In k' before -> ~ P k') /\ P k.

(** The series of a subject as points of the plane. *)
Definition as_points (series : list (Z * Z)) : list (Q * Q) :=
  map (fun p => (inject_Z (fst p), inject_Z (snd p))) series.

(** The sums a least-squares line is made of. *)
Definition cnt (l : list (Q * Q)) : Q := inject_Z (Z.of_nat (List.length l)).
Definition s_x (l : list (Q * Q)) : Q := Qsum (map fst l).
Definition s_y (l : list (Q * Q)) : Q := Qsum (map snd l).
Definition s_xx (l : list (Q * Q)) : Q :=
  Qsum (map (fun a => a * a)%Q (map fst l)).
Definition s_xy (l : list (Q * Q)) : Q :=
  Qsum (map (fun p => fst p * snd p)%Q l).
Definition s_yy (l : list (Q * Q)) : Q :=
  Qsum (map (fun a => a * a)%Q (map snd l)).

(** [n * sum x^2 - (sum x)^2], and the squared distances of [x] to the
    abscissas of [l]. *)
Definition spread (l : list (Q * Q)) : Q :=
  (cnt l * s_xx l - s_x l * s_x l)%Q.
Definition gap (x : Q) (l : list (Q * Q)) : Q :=
  Qsum (map (fun p => (x - fst p) * (x - fst p))%Q l).

(** Events that belong to the year prompt, the model prompt, the
    dispatcher and the saving of charts. *)
Definition forecast_event (e : event) : bool :=
  match e with
  | Prompt (PYear _ _ _) | Prompt PModel | Prompt PSave => true
  | FitLm _ | FitProphet _ | SaveFig _ _ => true
  | Print (MForecast _ _ _) | Print (MSaved _ _) => true
  | _ => false
  end.

(** No event of the outcome belongs to the forecast. *)
Definition before_forecast {A} (o : outcome A) : Prop :=
  Forall (fun e => forecast_event e = false) (trace o).

(** ** An instance of the runtime on ASCII text

    Used to run the script on concrete sessions. *)

Module AsciiRuntime.
Definition lower_char (c : ascii) : ascii :=
  let n := nat_of_ascii c in
  if ((65 <=? n) && (n <=? 90))%nat then ascii_of_nat (n + 32) else c.

Fixpoint to_lower (s : string) : string :=
  match s with
  | EmptyString => EmptyString
  | String c rest => String (lower_char c) (to_lower rest)
  end.

Definition is_space (c : ascii) : bool :=
  let n := nat_of_ascii c in
  ((n =? 32) || ((9 <=? n) && (n <=? 13)))%nat.

Fixpoint lstrip (s : string) : string :=
  match s with
  | EmptyString => EmptyString
  | String c rest => if is_space c then lstrip rest else s
  end.

Fixpoint rstrip (s : string) : string :=
  match s with
  | EmptyString => EmptyString
  | String c rest =>
      match rstrip rest with
      | EmptyString => if is_space c then EmptyString
                       else String c EmptyString
      | kept => String c kept
      end
  end.

Definition trim (s : string) : string := rstrip (lstrip s).

Fixpoint digits (acc : Z) (s : string) : option Z :=
  match s with
  | EmptyString => Some acc
  | String c rest =>
      let n := nat_of_ascii c in
      if ((48 <=? n) && (n <=? 57))%nat
      then digits (10 * acc + Z.of_nat (n - 48)) rest
      else None
  end.

Definition parse_int (s : string) : option Z :=
  match s with
  | EmptyString => None
  | String "-" (String c rest) => option_map Z.opp (digits 0 (String c rest))
  | String "+" (String c rest) => digits 0 (String c rest)
  | String "-" EmptyString | String "+" EmptyString => None
  | _ => digits 0 s
  end.

(** A stand-in for Prophet: the last observed count, for every
    observed year and for [periods] further years. *)
Definition flat_predict (history : list (Z * Z)) (periods : Z)
    : list (Z * Q) :=
  let last_year := fold_left Z.max (map fst history) 0 in
  let level := inject_Z (last (map snd history) 0) in
  map (fun p => (fst p, level)) history
  ++ map (fun k => (last_year + Z.of_nat k, level))
         (seq 1 (Z.to_nat periods)).

Definition runtime : PyRuntime :=
  {| lower := to_lower;
     strip := trim;
     int_of_str := parse_int;
     int_of_str_empty := eq_refl;
     prophet_predict := flat_predict |}.
End AsciiRuntime.

(** A table with one subject observed in five years, and one with a
    subject observed once. *)
Definition df_linear : frame :=
  [mkRow 2016 "Chemistry" 10; mkRow 2017 "Chemistry" 20;
   mkRow 2018 "Chemistry" 30; mkRow 2019 "Chemistry" 40;
   mkRow 2020 "Chemistry" 50].

Definition df_single : frame :=
  [mkRow 2023 "Physics" 7; mkRow 2024 "Physics" 9; mkRow 2024 "Chemistry" 5].

(** Two lowercase labels, one inside the other; and two labels that
    differ by case only. *)
Definition df_overlap : frame :=
  [mkRow 2023 "biochemistry" 4; mkRow 2024 "biochemistry" 6;
   mkRow 2023 "chemistry" 3; mkRow 2024 "chemistry" 8].

Definition df_case : frame :=
  [mkRow 2023 "chemistry" 3; mkRow 2024 "Chemistry" 8].

(** ** Vocabulary of the further properties *)

(** The event shows a prompt. *)
Definition is_prompt (e : event) : bool :=
  match e with Prompt _ => true | _ => false end.

(** The outcome is a value, or the action waits for input. *)
Definition only_waits {A} (o : outcome A) : Prop :=
  match o with
  | Done _ _ _ => True
  | Halt _ why => why = Blocked
  end.

(** An answer [ask_int] does not accept: an interrupt, text that is not
    an integer, or an integer outside the bounds. *)
Definition refused_int {rt : PyRuntime} (default : option Z) (lo hi : Z)
    (ev : input_ev) : Prop :=
  match ev with
  | Interrupt => True
  | Line s =>
      (strip s <> "" \/ default = None)
      /\ match int_of_str (strip s) with
         | None => True
         | Some y => y < lo \/ hi < y
         end
  end.

(** A line that strips to nothing. *)
Definition blank_line {rt : PyRuntime} (ev : input_ev) : Prop :=
  match ev with
  | Line s => strip s = ""
  | Interrupt => False
  end.

(** The number of prompts shown. *)
Definition prompts (tr : list event) : nat :=
  List.length (filter is_prompt tr).

(** What the matcher contributes to [eslesen_alanlar] for one token. *)
Definition matched (m : dict string) (token : string) : list string :=
  match matcher m token with
  | Some v => [v]
  | None => []
  end.

(** Lines 390-391: the rows of the last five years. *)
Definition son_5yil (df : frame) : frame :=
  match Yil_max df with
  | Some last => filter (fun r => Yil r >=? last - 4) df
  | None => []
  end.

(** Lines 395-396: the mean count of a subject over those rows. *)
Definition recent_mean (df : frame) (alan : string) : Q :=
  mean (map YayinSayisi (rows_of (son_5yil df) alan)).

(** Lines 394-398: the group keys, their means, and the means in the
    order [nlargest] reads them off. *)
Definition recent_labels (df : frame) : list string :=
  sort_labels (unique (map Alan (son_5yil df))).
Definition recent_means (df : frame) : list (string * Q) :=
  map (fun alan => (alan, recent_mean df alan)) (recent_labels df).
Definition ranking (df : frame) : list (string * Q) :=
  fold_right insert_desc [] (recent_means df).

(** The value of [q] is not larger than the value of [p]. *)
Definition not_below (p q : string * Q) : Prop := (snd q <= snd p)%Q.

(** The event writes a chart. *)
Definition is_savefig (e : event) : bool :=
  match e with SaveFig _ _ => true | _ => false end.

(** A console action never gives back more input than it received. *)
Definition shrinks {A} (m : console A) : Prop :=
  forall ins tr a rest,
    m ins = Done tr a rest -> (List.length rest <= List.length ins)%nat.

(** A console action reads at least one answer before it returns. *)
Definition reads {A} (m : console A) : Prop :=
  forall ins tr a rest,
    m ins = Done tr a rest -> (List.length rest < List.length ins)%nat.

(** How a run may stop: waiting for input; by [exit()] after the
    closing question; or by the interrupt that escapes at the subject
    prompt. *)
Definition regular_stop (tr : list event) (why : halt) : Prop :=
  match why with
  | Blocked => True
  | Exited =>
      exists tr',
        tr = tr' ++ [Prompt PRepeat; Print MTerminated; Print MSeparator]
  | Crashed => exists tr', tr = tr' ++ [Prompt PSubjects]
  end.

(** The outcome is a value, or it stops in one of those ways. *)
Definition stops_regularly {A} (o : outcome A) : Prop :=
  match o with
  | Done _ _ _ => True
  | Halt tr why => regular_stop tr why
  end.

(** Line 501: the last year of a subject's series. *)
Definition son_yil (df_prophet : list (Z * Z)) : Z :=
  fold_left Z.max (map fst df_prophet)
            (match df_prophet with
             | p :: _ => fst p
             | [] => 0
             end).

(** A subject whose counts fall by ten a year. *)
Definition df_falling : frame :=
  [mkRow 2022 "Mining" 30; mkRow 2023 "Mining" 20; mkRow 2024 "Mining" 10].

(** * Properties *)

(** ** Text and dictionaries *)

Lemma prefix_spec (t k : string) :
  String.prefix t k = true <-> exists rest, k = (t ++ rest)%string.
Proof.
  revert k; induction t as [|c t IH]; intros k; simpl.
  - split; [intros _; exists k; reflexivity | destruct k; reflexivity].
  - destruct k as [|c' k]; simpl.
    + split; [discriminate | intros [rest H]; discriminate].
    + destruct (ascii_dec c c') as [->|Hne].
      * rewrite IH. split; intros [rest H]; exists rest.
        -- now rewrite H.
        -- now injection H.
      * split; [discriminate | intros [rest H]; injection H; congruence].
Qed.

Lemma contains_spec (t k : string) :
  contains t k = true <-> substring_of t k.
Proof.
  unfold substring_of. induction k as [|c k IH]; cbn [contains].
  - destruct (String.prefix t "") eqn:E.
    + apply prefix_spec in E. destruct E as [rest E].
      split; [intros _; exists "", rest; exact E | reflexivity].
    + split; [discriminate |]. intros [b [a H]].
      destruct b; [|discriminate]. simpl in H.
      assert (String.prefix t "" = true) by (apply prefix_spec; eauto).
      congruence.
  - destruct (String.prefix t (String c k)) eqn:E.
    + apply prefix_spec in E. destruct E as [rest E].
      split; [intros _; exists "", rest; exact E | reflexivity].
    + rewrite IH. split.
      * intros [b [a H]]. exists (String c b), a. simpl. now rewrite H.
      * intros [b [a H]]. destruct b as [|c' b].
        -- simpl in H.
           assert (String.prefix t (String c k) = true)
             by (apply prefix_spec; eauto).
           congruence.
        -- simpl in H. injection H as _ H. eauto.
Qed.

Lemma satisfies_dec (t k : string) :
  String.eqb t k || contains t k = true <-> satisfies t k.
Proof.
  unfold satisfies.
  rewrite orb_true_iff, String.eqb_eq, contains_spec. reflexivity.
Qed.

Lemma first_top_key_eq (t : string) (keys : list string) :
  first_top_key t keys = first_user_key t keys.
Proof.
  induction keys as [|k keys IH]; simpl; [reflexivity|].
  rewrite IH. destruct (String.eqb t k); simpl; [reflexivity|].
  destruct (contains t k); reflexivity.
Qed.

Lemma first_user_key_unfold (t k : string) (keys : list string) :
  first_user_key t (k :: keys) =
  if String.eqb t k || contains t k then Some k else first_user_key t keys.
Proof.
  simpl. destruct (String.eqb t k); simpl; [reflexivity|].
  destruct (contains t k); reflexivity.
Qed.

Lemma first_user_key_some (t k : string) (keys : list string) :
  first_user_key t keys = Some k <-> first_such (satisfies t) keys k.
Proof.
  unfold first_such. induction keys as [|k0 keys IH].
  - simpl. split; [discriminate|].
    intros (b & a & H & _). destruct b; discriminate.
  - rewrite first_user_key_unfold.
    destruct (String.eqb t k0 || contains t k0) eqn:E.
    + apply satisfies_dec in E. split.
      * intros [= <-]. exists [], keys. simpl. intuition.
      * intros (b & a & H & Hb & Hk). destruct b as [|k1 b].
        -- simpl in H. congruence.
        -- simpl in H. injection H as <- _. exfalso.
           apply (Hb k0); [now left | exact E].
    + assert (Hn : ~ satisfies t k0)
        by (rewrite <- satisfies_dec; congruence).
      rewrite IH. split.
      * intros (b & a & H & Hb & Hk). exists (k0 :: b), a. simpl.
        split; [now rewrite H|]. split; [|exact Hk].
        intros k' [<-|Hin]; [exact Hn | now apply Hb].
      * intros (b & a & H & Hb & Hk). destruct b as [|k1 b].
        -- simpl in H. injection H as -> _. contradiction.
        -- simpl in H. injection H as <- H. exists b, a.
           split; [exact H|]. split; [|exact Hk].
           intros k' Hin. apply Hb. now right.
Qed.

Lemma first_user_key_none (t : string) (keys : list string) :
  first_user_key t keys = None <->
  forall k, In k keys -> ~ satisfies t k.
Proof.
  induction keys as [|k0 keys IH].
  - simpl. split; [intros _ k [] | reflexivity].
  - rewrite first_user_key_unfold.
    destruct (String.eqb t k0 || contains t k0) eqn:E.
    + split; [discriminate|]. intros H. exfalso.
      apply (H k0); [now left | now apply satisfies_dec].
    + rewrite IH. split.
      * intros H k [<-|Hin]; [|now apply H].
        rewrite <- satisfies_dec. congruence.
      * intros H k Hin. apply H. now right.
Qed.

Lemma dict_set_keys {V} (d : dict V) (k : string) (v : V) :
  dict_keys (dict_set d k v) =
  if existsb (String.eqb k) (dict_keys d) then dict_keys d
  else dict_keys d ++ [k].
Proof.
  unfold dict_keys. induction d as [|[k' v'] d IH]; simpl; [reflexivity|].
  rewrite (String.eqb_sym k k').
  destruct (String.eqb k' k) eqn:E; simpl; [reflexivity|].
  rewrite IH.
  destruct (existsb (String.eqb k) (map fst d)); reflexivity.
Qed.

Lemma existsb_eqb_In (k : string) (l : list string) :
  existsb (String.eqb k) l = true <-> In k l.
Proof.
  rewrite existsb_exists. split.
  - intros (x & Hin & E). apply String.eqb_eq in E. now subst.
  - intros Hin. exists k. split; [exact Hin | apply String.eqb_refl].
Qed.

Lemma dict_set_NoDup {V} (d : dict V) (k : string) (v : V) :
  NoDup (dict_keys d) -> NoDup (dict_keys (dict_set d k v)).
Proof.
  intros H. rewrite dict_set_keys.
  destruct (existsb (String.eqb k) (dict_keys d)) eqn:E; [exact H|].
  apply NoDup_app; [exact H | repeat constructor; intros [] |].
  intros x Hx [<-|[]].
  apply existsb_eqb_In in Hx. congruence.
Qed.

Lemma dict_get_set {V} (d : dict V) (k k' : string) (v : V) :
  dict_get (dict_set d k v) k' =
  if String.eqb k k' then Some v else dict_get d k'.
Proof.
  induction d as [|[k0 v0] d IH]; simpl.
  - destruct (String.eqb k k'); reflexivity.
  - destruct (String.eqb k0 k) eqn:E; simpl.
    + apply String.eqb_eq in E. subst k0.
      destruct (String.eqb k k'); reflexivity.
    + destruct (String.eqb k0 k') eqn:E'.
      * apply String.eqb_eq in E'. subst k0.
        rewrite String.eqb_sym, E. reflexivity.
      * exact IH.
Qed.

Lemma dict_get_In {V} (d : dict V) (k : string) (v : V) :
  NoDup (dict_keys d) -> (dict_get d k = Some v <-> In (k, v) d).
Proof.
  induction d as [|[k0 v0] d IH]; simpl; intros Hnd.
  - split; [discriminate | intros []].
  - inversion Hnd as [|? ? Hnotin Hnd']; subst.
    destruct (String.eqb k0 k) eqn:E.
    + apply String.eqb_eq in E. subst k0. split.
      * intros [= ->]. now left.
      * intros [[= ->]|Hin]; [reflexivity|].
        exfalso. apply Hnotin. change k with (fst (k, v)).
        now apply in_map.
    + rewrite (IH Hnd'). split; [now right|].
      intros [[= -> ->]|Hin]; [|exact Hin].
      rewrite String.eqb_refl in E. discriminate.
Qed.

Lemma dict_get_key {V} (d : dict V) (k : string) :
  In k (dict_keys d) -> exists v, dict_get d k = Some v.
Proof.
  induction d as [|[k0 v0] d IH]; simpl; [intros []|].
  intros H. destruct (String.eqb k0 k) eqn:E; [eauto|].
  destruct H as [->|H]; [|now apply IH].
  rewrite String.eqb_refl in E. discriminate.
Qed.

Section DictComprehension.
Context {A V : Type} (key : A -> string) (value : A -> V).

Local Notation "'step'" :=
  (fun (d : dict V) (x : A) => dict_set d (key x) (value x)).

Lemma fold_set_NoDup (xs : list A) (d : dict V) :
  NoDup (dict_keys d) -> NoDup (dict_keys (fold_left step xs d)).
Proof.
  revert d; induction xs as [|x xs IH]; intros d H; simpl; [exact H|].
  apply IH. now apply dict_set_NoDup.
Qed.

Lemma fold_set_keys (xs : list A) (d : dict V) (k : string) :
  In k (dict_keys (fold_left step xs d)) <->
  In k (dict_keys d) \/ In k (map key xs).
Proof.
  revert d; induction xs as [|x xs IH]; intros d; simpl; [tauto|].
  rewrite IH. rewrite dict_set_keys.
  destruct (existsb (String.eqb (key x)) (dict_keys d)) eqn:E.
  - apply existsb_eqb_In in E. intuition (subst; auto).
  - rewrite in_app_iff. simpl. intuition.
Qed.

Lemma fold_set_get (xs : list A) (d : dict V) (k : string) (v : V) :
  dict_get (fold_left step xs d) k = Some v ->
  dict_get d k = Some v \/ exists x, In x xs /\ key x = k /\ value x = v.
Proof.
  revert d; induction xs as [|x xs IH]; intros d; simpl; [now left|].
  intros H. apply IH in H. destruct H as [H|(y & Hin & Hk & Hv)].
  - rewrite dict_get_set in H.
    destruct (String.eqb (key x) k) eqn:E; [|now left].
    apply String.eqb_eq in E. injection H as <-. right. exists x. auto.
  - right. exists y. auto.
Qed.
End DictComprehension.

Lemma unique_acc_In (xs seen : list string) (x : string) :
  In x (fold_left (fun seen x => if existsb (String.eqb x) seen then seen
                                 else seen ++ [x]) xs seen) <->
  In x seen \/ In x xs.
Proof.
  revert seen; induction xs as [|y xs IH]; intros seen; simpl; [tauto|].
  rewrite IH. destruct (existsb (String.eqb y) seen) eqn:E.
  - apply existsb_eqb_In in E. intuition (subst; auto).
  - rewrite in_app_iff. simpl. intuition.
Qed.

Lemma unique_In (xs : list string) (x : string) :
  In x (unique xs) <-> In x xs.
Proof. unfold unique. rewrite unique_acc_In. simpl. tauto. Qed.

Lemma substring_of_refl (t : string) : substring_of t t.
Proof.
  exists "", "". simpl. induction t as [|c t IH]; simpl; [reflexivity|].
  now rewrite <- IH.
Qed.

Section MatcherFacts.
Context {rt : PyRuntime}.

Lemma alan_mapping_NoDup (df : frame) : NoDup (dict_keys (alan_mapping df)).
Proof. apply fold_set_NoDup. constructor. Qed.

Lemma alan_mapping_key (df : frame) (alan : string) :
  In alan (map Alan df) -> In (lower alan) (dict_keys (alan_mapping df)).
Proof.
  intros H. apply fold_set_keys. right.
  apply in_map. now apply unique_In.
Qed.

Lemma alan_mapping_value (df : frame) (k v : string) :
  dict_get (alan_mapping df) k = Some v ->
  In v (map Alan df) /\ lower v = k.
Proof.
  intros H. apply fold_set_get in H.
  destruct H as [H|(x & Hin & Hk & Hv)]; [discriminate|].
  subst. split; [now apply unique_In | reflexivity].
Qed.

Lemma matcher_some (m : dict string) (token v : string) :
  NoDup (dict_keys m) ->
  (matcher m token = Some v <->
   exists k, first_such (satisfies token) (dict_keys m) k /\ In (k, v) m).
Proof.
  intros Hnd. unfold matcher. split.
  - destruct (first_user_key token (dict_keys m)) as [k|] eqn:E;
      [|discriminate].
    intros H. exists k. split; [now apply first_user_key_some|].
    now apply dict_get_In.
  - intros (k & Hk & Hin). apply first_user_key_some in Hk.
    rewrite Hk. now apply dict_get_In.
Qed.

Lemma matcher_none (m : dict string) (token : string) :
  matcher m token = None <->
  forall k, In k (dict_keys m) -> ~ satisfies token k.
Proof.
  unfold matcher. rewrite <- first_user_key_none.
  destruct (first_user_key token (dict_keys m)) as [k|] eqn:E;
    [|tauto].
  split; [|discriminate]. intros H. exfalso.
  apply first_user_key_some in E. destruct E as (b & a & E & _).
  destruct (dict_get_key m k) as [v Hv]; [|congruence].
  rewrite E. apply in_or_app. right. now left.
Qed.

Lemma match_user_step_eq (st : store) (token : string) :
  match_user_step st token =
  mkStore (st_df st) (st_mapping st)
          (st_eslesen st ++ match matcher (st_mapping st) token with
                            | Some v => [v]
                            | None => []
                            end).
Proof.
  unfold match_user_step, append_match, matcher. destruct st as [d m e].
  simpl. destruct (first_user_key token (dict_keys m)) as [k|];
    [destruct (dict_get m k)|]; simpl; now rewrite ?app_nil_r.
Qed.

Lemma match_top_step_eq (st : store) (alan : string) :
  match_top_step st alan = match_user_step st (lower alan).
Proof.
  unfold match_top_step, match_user_step.
  now rewrite first_top_key_eq.
Qed.
End MatcherFacts.

(** ** C1: the subject matcher *)

(** C1.  The alias mapping built from the table sends the lowercase
    form of a label of the table to a label of the table, each key once.
    For that mapping and any token, the matcher returns [v] exactly when
    [v] is the value stored under the first key, in the order of the
    mapping, that the token equals or is a substring of; it returns
    nothing exactly when no key has that property.  One pass of either
    matching loop leaves the table and the mapping as they were and
    appends what the matcher returned. *)
Theorem matcher_contract {rt : PyRuntime} (df : frame) (token : string) :
  let m := alan_mapping df in
  NoDup (dict_keys m)
  /\ (forall k v, In (k, v) m -> In v (map Alan df) /\ lower v = k)
  /\ (forall v, matcher m token = Some v <->
                exists k, first_such (satisfies token) (dict_keys m) k
                          /\ In (k, v) m)
  /\ (matcher m token = None <->
      forall k, In k (dict_keys m) -> ~ satisfies token k)
  /\ (forall eslesen,
        match_user_step (mkStore df m eslesen) token =
        mkStore df m (eslesen ++ match matcher m token with
                                 | Some v => [v]
                                 | None => []
                                 end))
  /\ (forall eslesen alan,
        match_top_step (mkStore df m eslesen) alan =
        mkStore df m (eslesen ++ match matcher m (lower alan) with
                                 | Some v => [v]
                                 | None => []
                                 end)).
Proof.
  intros m. pose proof (alan_mapping_NoDup df) as Hnd. fold m in Hnd.
  split; [exact Hnd|]. split; [|split; [|split; [|split]]].
  - intros k v Hin. apply alan_mapping_value. now apply dict_get_In.
  - intros v. now apply matcher_some.
  - apply matcher_none.
  - intros eslesen. apply match_user_step_eq.
  - intros eslesen alan. rewrite match_top_step_eq. apply match_user_step_eq.
Qed.

(** ** C5: matching a label that is already lowercase *)

(** C5, as stated, fails: with the labels "biochemistry" and "chemistry"
    in the table, both lowercase, the matcher maps "chemistry" to
    "biochemistry", the first key that contains it; and with the labels
    "chemistry" and "Chemistry" it maps "chemistry" to "Chemistry", the
    last label stored under that key. *)
Lemma matcher_lowercase_label_overlap :
  (In "chemistry" (map Alan df_overlap)
   /\ @lower AsciiRuntime.runtime "chemistry" = "chemistry"
   /\ @matcher (@alan_mapping AsciiRuntime.runtime df_overlap) "chemistry"
      = Some "biochemistry"
   /\ @matcher (@alan_mapping AsciiRuntime.runtime df_overlap) "chemistry"
      <> Some "chemistry")
  /\ (In "chemistry" (map Alan df_case)
      /\ @matcher (@alan_mapping AsciiRuntime.runtime df_case) "chemistry"
         = Some "Chemistry"
      /\ @matcher (@alan_mapping AsciiRuntime.runtime df_case) "chemistry"
         <> Some "chemistry").
Proof.
  split.
  - split; [simpl; tauto|]. split; [reflexivity|].
    split; [vm_compute; reflexivity | vm_compute; discriminate].
  - split; [simpl; tauto|].
    split; [vm_compute; reflexivity | vm_compute; discriminate].
Qed.

(** C5, amended.  A label of the table that is its own lowercase form is
    returned by the matcher when it is the first key of the mapping that
    contains it and no other label of the table has it as lowercase
    form. *)
Theorem matcher_lowercase_label {rt : PyRuntime} (df : frame)
    (label : string) :
  In label (map Alan df) ->
  lower label = label ->
  first_such (substring_of label) (dict_keys (alan_mapping df)) label ->
  (forall other, In other (map Alan df) -> lower other = label ->
                 other = label) ->
  matcher (alan_mapping df) label = Some label.
Proof.
  intros Hin Hlow (before & after & Hkeys & Hbefore & _) Huniq.
  unfold matcher.
  assert (Hfirst : first_user_key label (dict_keys (alan_mapping df))
                   = Some label).
  { apply first_user_key_some. exists before, after.
    split; [exact Hkeys|]. split; [|now left].
    intros k Hk [->|Hsub]; apply (Hbefore _ Hk);
      [apply substring_of_refl | exact Hsub]. }
  rewrite Hfirst.
  destruct (dict_get_key (alan_mapping df) label) as [v Hv].
  { rewrite <- Hlow. now apply alan_mapping_key. }
  rewrite Hv. f_equal.
  apply alan_mapping_value in Hv. destruct Hv as [Hv1 Hv2].
  now apply Huniq.
Qed.

Lemma matcher_lowercase_label_witness :
  @matcher (@alan_mapping AsciiRuntime.runtime
              [mkRow 2023 "chemistry" 3; mkRow 2024 "Physics" 8;
               mkRow 2024 "biochemistry" 5])
           "chemistry"
  = Some "chemistry".
Proof.
  apply (@matcher_lowercase_label AsciiRuntime.runtime).
  - simpl; tauto.
  - reflexivity.
  - exists [], ["physics"; "biochemistry"].
    split; [vm_compute; reflexivity|].
    split; [intros k [] | apply substring_of_refl].
  - intros other [<-|[<-|[<-|[]]]]; simpl; vm_compute; congruence.
Defined.

(** ** The console monad *)

Lemma emit_nil {A} (o : outcome A) : emit [] o = o.
Proof. destruct o; reflexivity. Qed.

Lemma emit_emit {A} (t1 t2 : list event) (o : outcome A) :
  emit t1 (emit t2 o) = emit (t1 ++ t2) o.
Proof. destruct o; simpl; now rewrite app_assoc. Qed.

Lemma emit_Done_inv {A} (t tr : list event) (o : outcome A) (a : A)
    (rest : list input_ev) :
  emit t o = Done tr a rest ->
  exists tr', o = Done tr' a rest /\ tr = t ++ tr'.
Proof.
  destruct o as [tr' a' rest'|tr' why]; simpl; [|discriminate].
  intros [= <- <- <-]. eauto.
Qed.

Lemma trace_emit {A} (t : list event) (o : outcome A) :
  trace (emit t o) = t ++ trace o.
Proof. destruct o; reflexivity. Qed.

Lemma bind_Done {A B} (m : console A) (k : A -> console B)
    (ins rest : list input_ev) (tr : list event) (a : A) :
  m ins = Done tr a rest -> bind m k ins = emit tr (k a rest).
Proof. unfold bind. now intros ->. Qed.

Lemma bind_Halt {A B} (m : console A) (k : A -> console B)
    (ins : list input_ev) (tr : list event) (why : halt) :
  m ins = Halt tr why -> bind m k ins = Halt tr why.
Proof. unfold bind. now intros ->. Qed.

(** ** C2, C9, C10: the year prompt *)

Section AskInt.
Context {rt : PyRuntime}.

Lemma typed_not_empty (raw : string) (y : Z) :
  int_of_str (strip raw) = Some y -> String.eqb (strip raw) "" = false.
Proof.
  intros H. apply String.eqb_neq. intros E. rewrite E in H.
  rewrite int_of_str_empty in H. discriminate.
Qed.

Lemma ask_int_empty (p : prompt) (d : Z) (min_val max_val : option Z)
    (raw : string) (rest : list input_ev) :
  strip raw = "" ->
  ask_int p (Some d) min_val max_val (Line raw :: rest)
  = Done [Prompt p] d rest.
Proof. intros E. simpl. rewrite E. reflexivity. Qed.

Lemma ask_int_accept (p : prompt) (d : option Z) (lo hi y : Z)
    (raw : string) (rest : list input_ev) :
  int_of_str (strip raw) = Some y -> lo <= y <= hi ->
  ask_int p d (Some lo) (Some hi) (Line raw :: rest)
  = Done [Prompt p] y rest.
Proof.
  intros H Hr. cbn [ask_int too_small too_large]. cbv zeta.
  rewrite (typed_not_empty _ _ H), H.
  replace (y <? lo) with false by (symmetry; apply Z.ltb_ge; lia).
  replace (y >? hi) with false by (rewrite Z.gtb_ltb; symmetry;
                                   apply Z.ltb_ge; lia).
  reflexivity.
Qed.

Lemma ask_int_too_small (p : prompt) (d : option Z) (lo y : Z)
    (max_val : option Z) (raw : string) (rest : list input_ev) :
  int_of_str (strip raw) = Some y -> y < lo ->
  ask_int p d (Some lo) max_val (Line raw :: rest)
  = emit [Prompt p; Print (MAtLeast lo)]
         (ask_int p d (Some lo) max_val rest).
Proof.
  intros H Hr. cbn [ask_int too_small]. cbv zeta.
  rewrite (typed_not_empty _ _ H), H.
  replace (y <? lo) with true by (symmetry; apply Z.ltb_lt; lia).
  reflexivity.
Qed.

Lemma ask_int_too_large (p : prompt) (d : option Z) (lo hi y : Z)
    (raw : string) (rest : list input_ev) :
  int_of_str (strip raw) = Some y -> lo <= y -> hi < y ->
  ask_int p d (Some lo) (Some hi) (Line raw :: rest)
  = emit [Prompt p; Print (MAtMost hi)]
         (ask_int p d (Some lo) (Some hi) rest).
Proof.
  intros H Hlo Hr. cbn [ask_int too_small too_large]. cbv zeta.
  rewrite (typed_not_empty _ _ H), H.
  replace (y <? lo) with false by (symmetry; apply Z.ltb_ge; lia).
  replace (y >? hi) with true by (rewrite Z.gtb_ltb; symmetry;
                                  apply Z.ltb_lt; lia).
  reflexivity.
Qed.

(** Whatever [ask_int] returns was the last answer read: the empty
    answer with the default, or a typed integer inside the bounds. *)
Lemma ask_int_returns (p : prompt) (d : option Z) (lo hi : Z)
    (ins rest : list input_ev) (tr : list event) (v : Z) :
  ask_int p d (Some lo) (Some hi) ins = Done tr v rest ->
  exists consumed raw,
    ins = consumed ++ Line raw :: rest
    /\ ((strip raw = "" /\ d = Some v)
        \/ (int_of_str (strip raw) = Some v /\ lo <= v <= hi)).
Proof.
  revert tr. induction ins as [|ev ins IH]; intros tr H.
  - discriminate.
  - destruct ev as [s|].
    + cbn [ask_int] in H. cbv zeta in H.
      destruct (String.eqb (strip s) "") eqn:E.
      * destruct d as [dv|].
        -- injection H as <- <- <-. exists [], s.
           split; [reflexivity|]. left.
           apply String.eqb_eq in E. auto.
        -- destruct (int_of_str (strip s)) as [val|] eqn:Ei.
           ++ apply String.eqb_eq in E. rewrite E, int_of_str_empty in Ei.
              discriminate.
           ++ apply emit_Done_inv in H. destruct H as (tr' & H & _).
              destruct (IH _ H) as (c & raw & -> & Hc).
              exists (Line s :: c), raw. auto.
      * destruct (int_of_str (strip s)) as [val|] eqn:Ei.
        -- unfold too_small, too_large in H.
           destruct (val <? lo) eqn:E1.
           ++ apply emit_Done_inv in H. destruct H as (tr' & H & _).
              destruct (IH _ H) as (c & raw & -> & Hc).
              exists (Line s :: c), raw. auto.
           ++ destruct (val >? hi) eqn:E2.
              ** apply emit_Done_inv in H. destruct H as (tr' & H & _).
                 destruct (IH _ H) as (c & raw & -> & Hc).
                 exists (Line s :: c), raw. auto.
              ** injection H as <- <- <-. exists [], s.
                 split; [reflexivity|]. right. split; [exact Ei|].
                 apply Z.ltb_ge in E1. rewrite Z.gtb_ltb in E2.
                 apply Z.ltb_ge in E2. lia.
        -- apply emit_Done_inv in H. destruct H as (tr' & H & _).
           destruct (IH _ H) as (c & raw & -> & Hc).
           exists (Line s :: c), raw. auto.
    + cbn [ask_int] in H.
      apply emit_Done_inv in H. destruct H as (tr' & H & _).
      destruct (IH _ H) as (c & raw & -> & Hc).
      exists (Interrupt :: c), raw. auto.
Qed.
End AskInt.

(** C2.  At the year prompt a typed integer inside the allowed range is
    returned as it is; one outside the range is answered with a warning
    and the prompt is shown again; and a value the prompt returns after a
    typed answer lies inside the range. *)
Theorem year_prompt_validation {rt : PyRuntime} (lo hi y : Z) (raw : string)
    (rest : list input_ev) :
  int_of_str (strip raw) = Some y ->
  let p := PYear lo hi (default_year lo) in
  (lo <= y <= hi ->
   ask_hedef_yil lo hi (Line raw :: rest) = Done [Prompt p] y rest)
  /\ (y < lo ->
      ask_hedef_yil lo hi (Line raw :: rest)
      = emit [Prompt p; Print (MAtLeast lo)] (ask_hedef_yil lo hi rest))
  /\ (lo <= y -> hi < y ->
      ask_hedef_yil lo hi (Line raw :: rest)
      = emit [Prompt p; Print (MAtMost hi)] (ask_hedef_yil lo hi rest))
  /\ (forall ins tr v rest',
        ask_hedef_yil lo hi ins = Done tr v rest' ->
        exists consumed last_raw,
          ins = consumed ++ Line last_raw :: rest'
          /\ ((strip last_raw = "" /\ v = default_year lo)
              \/ (int_of_str (strip last_raw) = Some v /\ lo <= v <= hi))).
Proof.
  intros H p. unfold ask_hedef_yil. fold p.
  split; [|split; [|split]].
  - intros Hr. now apply ask_int_accept.
  - intros Hr. now apply (ask_int_too_small _ _ _ y).
  - intros Hlo Hr. now apply (ask_int_too_large _ _ _ _ y).
  - intros ins tr v rest' Hd. apply ask_int_returns in Hd.
    destruct Hd as (c & r & E & [[E1 E2]|E1]); exists c, r;
      (split; [exact E|]); [left|right; exact E1].
    split; [exact E1 | congruence].
Qed.

Lemma year_prompt_validation_witness :
  @ask_hedef_yil AsciiRuntime.runtime 2025 2124 [Line " 2030 "; Line "x"]
  = Done [Prompt (PYear 2025 2124 2026)] 2030 [Line "x"]
  /\ @ask_hedef_yil AsciiRuntime.runtime 2025 2124 [Line "2024"; Line "2030"]
     = Done [Prompt (PYear 2025 2124 2026); Print (MAtLeast 2025);
             Prompt (PYear 2025 2124 2026)] 2030 []
  /\ @ask_hedef_yil AsciiRuntime.runtime 2025 2124 [Line "2125"; Line "2030"]
     = Done [Prompt (PYear 2025 2124 2026); Print (MAtMost 2124);
             Prompt (PYear 2025 2124 2026)] 2030 [].
Proof.
  split; [|split].
  - apply (@year_prompt_validation AsciiRuntime.runtime 2025 2124 2030
             " 2030 " [Line "x"] eq_refl). lia.
  - rewrite (proj1 (proj2 (@year_prompt_validation AsciiRuntime.runtime
               2025 2124 2024 "2024" [Line "2030"] eq_refl))) by lia.
    reflexivity.
  - rewrite (proj1 (proj2 (proj2 (@year_prompt_validation
               AsciiRuntime.runtime 2025 2124 2125 "2125" [Line "2030"]
               eq_refl)))) by lia.
    reflexivity.
Defined.

(** C9.  An empty answer at the year prompt is accepted as
    [max(TARGET_DEFAULT, ALLOWED_MIN_YEAR)]. *)
Theorem empty_year_input_default {rt : PyRuntime} (allowed_min allowed_max : Z)
    (raw : string) (rest : list input_ev) :
  strip raw = "" ->
  ask_hedef_yil allowed_min allowed_max (Line raw :: rest)
  = Done [Prompt (PYear allowed_min allowed_max
                        (Z.max TARGET_DEFAULT allowed_min))]
         (Z.max TARGET_DEFAULT allowed_min) rest.
Proof. intros E. unfold ask_hedef_yil. now apply ask_int_empty. Qed.

Lemma empty_year_input_default_witness :
  @ask_hedef_yil AsciiRuntime.runtime 2025 2124 [Line "  "; Line "lm"]
  = Done [Prompt (PYear 2025 2124 2026)] 2026 [Line "lm"]
  /\ @ask_hedef_yil AsciiRuntime.runtime 2031 2130 [Line ""]
     = Done [Prompt (PYear 2031 2130 2031)] 2031 [].
Proof.
  split.
  - apply (@empty_year_input_default AsciiRuntime.runtime 2025 2124 "  ").
    reflexivity.
  - apply (@empty_year_input_default AsciiRuntime.runtime 2031 2130 "").
    reflexivity.
Defined.

(** C10.  On an empty answer [ask_int] returns the default without
    comparing it with the bounds: a default outside the bounds is
    returned, while the same integer typed in is refused and asked for
    again. *)
Theorem ask_int_default_unchecked {rt : PyRuntime} (p : prompt)
    (d min_val max_val : Z) (raw : string) (rest : list input_ev) :
  strip raw = "" ->
  d < min_val \/ max_val < d ->
  ask_int p (Some d) (Some min_val) (Some max_val) (Line raw :: rest)
  = Done [Prompt p] d rest
  /\ (forall typed, int_of_str (strip typed) = Some d ->
        exists warning,
          ask_int p (Some d) (Some min_val) (Some max_val)
                  (Line typed :: rest)
          = emit [Prompt p; Print warning]
                 (ask_int p (Some d) (Some min_val) (Some max_val) rest)).
Proof.
  intros E Hout. split; [now apply ask_int_empty|].
  intros typed Ht. destruct (Z_lt_le_dec d min_val) as [Hlo|Hlo].
  - exists (MAtLeast min_val). now apply (ask_int_too_small _ _ _ d).
  - exists (MAtMost max_val).
    apply (ask_int_too_large _ _ _ _ d); [exact Ht|lia|lia].
Qed.

Lemma ask_int_default_unchecked_witness :
  @ask_int AsciiRuntime.runtime PChoice (Some 1999) (Some 2025) (Some 2124)
           [Line ""; Line "2030"]
  = Done [Prompt PChoice] 1999 [Line "2030"]
  /\ @ask_int AsciiRuntime.runtime PChoice (Some 3000) (Some 2025) (Some 2124)
              [Line " "]
     = Done [Prompt PChoice] 3000 [].
Proof.
  split.
  - apply (@ask_int_default_unchecked AsciiRuntime.runtime PChoice 1999
             2025 2124 "" [Line "2030"]); [reflexivity | lia].
  - apply (@ask_int_default_unchecked AsciiRuntime.runtime PChoice 3000
             2025 2124 " " []); [reflexivity | lia].
Defined.

(** ** C4: the allowed range of target years *)

Lemma fold_max_ge (l : list Z) (a : Z) :
  a <= fold_left Z.max l a
  /\ forall x, In x l -> x <= fold_left Z.max l a.
Proof.
  revert a; induction l as [|b l IH]; intros a; simpl.
  - split; [lia | intros x []].
  - destruct (IH (Z.max a b)) as [H1 H2]. split; [lia|].
    intros x [<-|Hin]; [lia | now apply H2].
Qed.

Lemma fold_max_in (l : list Z) (a : Z) :
  fold_left Z.max l a = a \/ In (fold_left Z.max l a) l.
Proof.
  revert a; induction l as [|b l IH]; intros a; simpl; [now left|].
  destruct (IH (Z.max a b)) as [H|H]; [|now right; right].
  rewrite H. destruct (Z.max_spec a b) as [[_ E]|[_ E]]; rewrite E; auto.
Qed.

Lemma Yil_max_spec (df : frame) (last : Z) :
  Yil_max df = Some last ->
  (exists r, In r df /\ Yil r = last) /\ (forall r, In r df -> Yil r <= last).
Proof.
  destruct df as [|r df]; simpl; [discriminate|].
  intros [= <-]. split.
  - destruct (fold_max_in (map Yil df) (Yil r)) as [H|H].
    + exists r. rewrite H. auto.
    + apply in_map_iff in H. destruct H as (r' & E & Hin).
      exists r'. auto.
  - destruct (fold_max_ge (map Yil df) (Yil r)) as [H1 H2].
    intros r' [<-|Hin]; [exact H1|]. apply H2. now apply in_map.
Qed.

(** C4.  When the table has a last year, that year is the largest year
    of its rows; the allowed range is from that year plus 1 to that year
    plus 100; the program works out the two bounds before the loop and
    every pass of the loop runs with them; and a typed year is accepted
    at the year prompt exactly when it lies in that range. *)
Theorem allowed_year_range {rt : PyRuntime} (df : frame) (last : Z) :
  DATA_LAST_YEAR df = Some last ->
  (exists r, In r df /\ Yil r = last)
  /\ (forall r, In r df -> Yil r <= last)
  /\ ALLOWED_MIN_YEAR last = last + 1
  /\ ALLOWED_MAX_YEAR last = last + 100
  /\ (forall passes ins,
        program passes df ins
        = menu_loop passes df (last + 1) (last + 100) ins)
  /\ (forall raw y rest,
        int_of_str (strip raw) = Some y ->
        (ask_hedef_yil (ALLOWED_MIN_YEAR last) (ALLOWED_MAX_YEAR last)
                       (Line raw :: rest)
         = Done [Prompt (PYear (ALLOWED_MIN_YEAR last) (ALLOWED_MAX_YEAR last)
                               (default_year (ALLOWED_MIN_YEAR last)))]
                y rest
         <-> last + 1 <= y <= last + 100)).
Proof.
  intros H. destruct (Yil_max_spec df last H) as [H1 H2].
  split; [exact H1|]. split; [exact H2|].
  split; [reflexivity|]. split; [reflexivity|]. split.
  - intros passes ins. unfold program. rewrite H. reflexivity.
  - intros raw y rest Hy. unfold ALLOWED_MIN_YEAR, ALLOWED_MAX_YEAR.
    unfold ask_hedef_yil. split.
    + intros E. destruct (Z_lt_le_dec y (last + 1)) as [Hl|Hl].
      * rewrite (ask_int_too_small _ _ _ y _ _ _ Hy Hl) in E.
        apply emit_Done_inv in E. destruct E as (tr' & _ & E). discriminate.
      * destruct (Z_lt_le_dec (last + 100) y) as [Hh|Hh]; [|lia].
        rewrite (ask_int_too_large _ _ _ _ y _ _ Hy Hl Hh) in E.
        apply emit_Done_inv in E. destruct E as (tr' & _ & E). discriminate.
    + intros Hr. now apply ask_int_accept.
Qed.

Lemma allowed_year_range_witness :
  ALLOWED_MIN_YEAR 2024 = 2025
  /\ ALLOWED_MAX_YEAR 2024 = 2124
  /\ @program AsciiRuntime.runtime 1 df_single [Line "x"]
     = @menu_loop AsciiRuntime.runtime 1 df_single 2025 2124 [Line "x"].
Proof.
  destruct (@allowed_year_range AsciiRuntime.runtime df_single 2024 eq_refl)
    as (_ & _ & Hmin & Hmax & Hprog & _).
  split; [exact Hmin|]. split; [exact Hmax|]. apply Hprog.
Defined.

(** ** C3: the linear model *)

Section LeastSquares.
Local Open Scope Q_scope.

Lemma s_x_cons p l : s_x (p :: l) = fst p + s_x l.
Proof. reflexivity. Qed.
Lemma s_y_cons p l : s_y (p :: l) = snd p + s_y l.
Proof. reflexivity. Qed.
Lemma s_xx_cons p l : s_xx (p :: l) = fst p * fst p + s_xx l.
Proof. reflexivity. Qed.
Lemma s_xy_cons p l : s_xy (p :: l) = fst p * snd p + s_xy l.
Proof. reflexivity. Qed.
Lemma s_yy_cons p l : s_yy (p :: l) = snd p * snd p + s_yy l.
Proof. reflexivity. Qed.

Lemma cnt_cons p l : cnt (p :: l) == cnt l + 1.
Proof.
  unfold cnt. cbn [List.length]. rewrite Nat2Z.inj_succ. unfold Z.succ.
  rewrite inject_Z_plus. reflexivity.
Qed.

Lemma combine_fst_snd (l : list (Q * Q)) :
  combine (map fst l) (map snd l) = l.
Proof.
  induction l as [|[a b] l IH]; simpl; [reflexivity | now rewrite IH].
Qed.

Lemma sq_error_expand a b l :
  sq_error a b (map fst l) (map snd l) ==
  a * a * s_xx l + 2 * a * b * s_x l + cnt l * b * b
  - 2 * a * s_xy l - 2 * b * s_y l + s_yy l.
Proof.
  unfold sq_error. rewrite combine_fst_snd.
  induction l as [|p l IH].
  - unfold cnt, s_xx, s_x, s_xy, s_y, s_yy. simpl. ring.
  - rewrite cnt_cons, s_x_cons, s_y_cons, s_xx_cons, s_xy_cons, s_yy_cons.
    change (Qsum (map ?f (p :: l))) with (f p + Qsum (map f l)).
    cbv beta. rewrite IH. ring.
Qed.

Lemma Qsquare_nonneg (q : Q) : 0 <= q * q.
Proof. nra. Qed.

Lemma Qsquare_pos (q : Q) : ~ q == 0 -> 0 < q * q.
Proof.
  intros H. destruct (Qlt_le_dec 0 (q * q)) as [|Hle]; [assumption|].
  exfalso. apply H. nra.
Qed.

Lemma gap_expand x l : gap x l == cnt l * x * x - 2 * x * s_x l + s_xx l.
Proof.
  induction l as [|p l IH].
  - unfold gap, cnt, s_x, s_xx. simpl. ring.
  - rewrite cnt_cons, s_x_cons, s_xx_cons.
    change (gap x (p :: l)) with ((x - fst p) * (x - fst p) + gap x l).
    rewrite IH. ring.
Qed.

Lemma gap_nonneg x l : 0 <= gap x l.
Proof.
  induction l as [|p l IH].
  - unfold gap. simpl. lra.
  - change (gap x (p :: l)) with ((x - fst p) * (x - fst p) + gap x l).
    pose proof (Qsquare_nonneg (x - fst p)). lra.
Qed.

Lemma gap_pos x l p : In p l -> ~ fst p == x -> 0 < gap x l.
Proof.
  induction l as [|r l IH]; [intros []|].
  intros Hin Hne.
  change (gap x (r :: l)) with ((x - fst r) * (x - fst r) + gap x l).
  pose proof (gap_nonneg x l) as Hg.
  destruct Hin as [->|Hin].
  - assert (0 < (x - fst p) * (x - fst p)) by (apply Qsquare_pos; lra). lra.
  - pose proof (IH Hin Hne) as Hp.
    pose proof (Qsquare_nonneg (x - fst r)). lra.
Qed.

Lemma spread_cons p l : spread (p :: l) == spread l + gap (fst p) l.
Proof.
  rewrite gap_expand. unfold spread.
  rewrite cnt_cons, s_x_cons, s_xx_cons. ring.
Qed.

Lemma spread_nonneg l : 0 <= spread l.
Proof.
  induction l as [|p l IH].
  - unfold spread, cnt, s_xx, s_x. simpl. lra.
  - rewrite spread_cons. pose proof (gap_nonneg (fst p) l). lra.
Qed.

Lemma spread_pos l p q : In p l -> In q l -> ~ fst p == fst q -> 0 < spread l.
Proof.
  induction l as [|r l IH]; [intros []|].
  intros Hp Hq Hne. rewrite spread_cons.
  pose proof (spread_nonneg l) as Hs.
  pose proof (gap_nonneg (fst r) l) as Hg.
  destruct Hp as [->|Hp]; destruct Hq as [->|Hq].
  - exfalso. apply Hne. reflexivity.
  - assert (0 < gap (fst p) l).
    { apply (gap_pos _ _ q); [assumption|].
      intros E. apply Hne. now symmetry. }
    lra.
  - assert (0 < gap (fst q) l) by (apply (gap_pos _ _ p); assumption).
    lra.
  - pose proof (IH Hp Hq Hne). lra.
Qed.

Lemma cnt_pos p l : 0 < cnt (p :: l).
Proof.
  unfold cnt. replace 0 with (inject_Z 0) by reflexivity.
  rewrite <- Zlt_Qlt. cbn [List.length]. lia.
Qed.

Lemma polyfit1_normal l :
  0 < cnt l -> 0 < spread l ->
  let coef := polyfit1 (map fst l) (map snd l) in
  fst coef * s_xx l + snd coef * s_x l == s_xy l
  /\ fst coef * s_x l + cnt l * snd coef == s_y l.
Proof.
  intros Hn Hd. unfold polyfit1. rewrite combine_fst_snd, length_map.
  fold (cnt l) (s_x l) (s_y l) (s_xx l) (s_xy l). cbn [fst snd].
  unfold spread in Hd.
  split; field; split; lra.
Qed.

Lemma polyfit1_least l a b :
  0 < cnt l -> 0 < spread l ->
  let coef := polyfit1 (map fst l) (map snd l) in
  sq_error (fst coef) (snd coef) (map fst l) (map snd l)
  <= sq_error a b (map fst l) (map snd l).
Proof.
  intros Hn Hd coef. destruct (polyfit1_normal l Hn Hd) as [N1 N2].
  fold coef in N1, N2. rewrite !sq_error_expand.
  generalize dependent (fst coef). generalize dependent (snd coef).
  clear coef. intros b0 a0 N1 N2. unfold spread in Hd.
  set (n := cnt l) in *. set (sx := s_x l) in *. set (sy := s_y l) in *.
  set (sxx := s_xx l) in *. set (sxy := s_xy l) in *.
  set (syy := s_yy l) in *.
  pose (da := a - a0). pose (db := b - b0).
  pose (form := sxx * da * da + 2 * sx * da * db + n * db * db).
  assert (Hform : 0 <= form).
  { assert (E : n * form
                == (n * db + sx * da) * (n * db + sx * da)
                   + (n * sxx - sx * sx) * (da * da))
      by (unfold form; ring).
    pose proof (Qsquare_nonneg (n * db + sx * da)) as H1.
    pose proof (Qsquare_nonneg da) as H2.
    assert (H3 : 0 <= (n * sxx - sx * sx) * (da * da))
      by (apply Qmult_le_0_compat; lra).
    apply (Qmult_le_l _ _ n Hn). lra. }
  assert (E : a * a * sxx + 2 * a * b * sx + n * b * b
              - 2 * a * sxy - 2 * b * sy + syy
              == a0 * a0 * sxx + 2 * a0 * b0 * sx + n * b0 * b0
                 - 2 * a0 * sxy - 2 * b0 * sy + syy + form
                 + 2 * da * (a0 * sxx + b0 * sx - sxy)
                 + 2 * db * (a0 * sx + n * b0 - sy))
    by (unfold form, da, db; ring).
  rewrite E, N1, N2.
  assert (Z1 : 2 * da * (sxy - sxy) == 0) by ring.
  assert (Z2 : 2 * db * (sy - sy) == 0) by ring.
  rewrite Z1, Z2. lra.
Qed.
End LeastSquares.

Section Rounding.
Local Open Scope Q_scope.

Lemma clamp0_nonneg v : 0 <= clamp0 v.
Proof. unfold clamp0. destruct (Qlt_le_dec 0 v); lra. Qed.

Lemma clamp0_negative v : v < 0 -> clamp0 v = 0.
Proof. unfold clamp0. destruct (Qlt_le_dec 0 v); [lra|reflexivity]. Qed.

Lemma clamp0_id v : 0 <= v -> clamp0 v == v.
Proof. unfold clamp0. destruct (Qlt_le_dec 0 v); lra. Qed.

Lemma py_round_near v :
  inject_Z (py_round v) - (1#2) <= v /\ v <= inject_Z (py_round v) + (1#2).
Proof.
  unfold py_round. cbv zeta.
  pose proof (Qfloor_le v) as Hlo. pose proof (Qlt_floor v) as Hhi.
  rewrite inject_Z_plus in Hhi. change (inject_Z 1) with 1 in Hhi.
  destruct (v - inject_Z (Qfloor v) ?= 1 # 2) eqn:E.
  - apply Qeq_alt in E. destruct (Z.even (Qfloor v)).
    + lra.
    + rewrite inject_Z_plus. change (inject_Z 1) with 1. lra.
  - apply Qlt_alt in E. lra.
  - apply Qgt_alt in E. rewrite inject_Z_plus.
    change (inject_Z 1) with 1. lra.
Qed.

Lemma py_round_nonneg v : 0 <= v -> (0 <= py_round v)%Z.
Proof.
  intros H. assert (Hf : (0 <= Qfloor v)%Z).
  { change 0%Z with (Qfloor 0). now apply Qfloor_resp_le. }
  unfold py_round. cbv zeta. destruct (v - inject_Z (Qfloor v) ?= 1 # 2);
    [destruct (Z.even (Qfloor v))| |]; lia.
Qed.

Lemma py_round_zero : py_round 0 = 0%Z.
Proof. reflexivity. Qed.
End Rounding.

Lemma nodup_two (l : list Z) :
  (2 <= List.length (np_unique l))%nat ->
  exists a b, In a l /\ In b l /\ a <> b.
Proof.
  unfold np_unique. intros H.
  pose proof (NoDup_nodup Z.eq_dec l) as Hnd.
  destruct (nodup Z.eq_dec l) as [|a [|b rest]] eqn:E; simpl in H; try lia.
  exists a, b. split; [|split].
  - apply (nodup_In Z.eq_dec). rewrite E. now left.
  - apply (nodup_In Z.eq_dec). rewrite E. right. now left.
  - inversion Hnd as [|? ? Hn _]; subst. intros ->. apply Hn. now left.
Qed.

Lemma nodup_length_le (l : list Z) :
  (List.length (np_unique l) <= List.length l)%nat.
Proof.
  unfold np_unique. induction l as [|a l IH]; simpl; [lia|].
  destruct (in_dec Z.eq_dec a l); simpl; lia.
Qed.

Lemma as_points_fst series :
  map fst (as_points series) = map (fun p => inject_Z (fst p)) series.
Proof. unfold as_points. rewrite map_map. reflexivity. Qed.

Lemma as_points_snd series :
  map snd (as_points series) = map (fun p => inject_Z (snd p)) series.
Proof. unfold as_points. rewrite map_map. reflexivity. Qed.

Lemma lm_least_squares (series : list (Z * Z)) (a b : Q) :
  (2 <= List.length (np_unique (map fst series)))%nat ->
  let years := map (fun p => inject_Z (fst p)) series in
  let y_vals := map (fun p => inject_Z (snd p)) series in
  let coef := polyfit1 years y_vals in
  (sq_error (fst coef) (snd coef) years y_vals <= sq_error a b years y_vals)%Q.
Proof.
  intros H years y_vals. unfold years, y_vals.
  rewrite <- as_points_fst, <- as_points_snd.
  destruct (nodup_two _ H) as (u & v & Hu & Hv & Hne).
  apply in_map_iff in Hu. destruct Hu as (p & <- & Hp).
  apply in_map_iff in Hv. destruct Hv as (q & <- & Hq).
  apply polyfit1_least.
  - destruct series as [|r series]; [destruct Hp|]. apply cnt_pos.
  - apply (spread_pos _ (inject_Z (fst p), inject_Z (snd p))
                        (inject_Z (fst q), inject_Z (snd q))).
    + apply (in_map (fun p => (inject_Z (fst p), inject_Z (snd p)))).
      exact Hp.
    + apply (in_map (fun p => (inject_Z (fst p), inject_Z (snd p)))).
      exact Hq.
    + cbn [fst]. intros E. apply Hne. now apply inject_Z_injective.
Qed.

Lemma forecast_one_lm {rt : PyRuntime} (df : frame) (hedef_yil : Z)
    (alan : string) :
  let series := map (fun r => (Yil r, YayinSayisi r)) (rows_of df alan) in
  let years := map (fun p => inject_Z (fst p)) series in
  let y_vals := map (fun p => inject_Z (snd p)) series in
  let coef := polyfit1 years y_vals in
  let sonuc := py_round (clamp0 (polyval1 coef (inject_Z hedef_yil))) in
  (2 <= List.length (np_unique (map fst series)))%nat ->
  forecast_one df hedef_yil "lm" alan
  = ([FitLm alan; Print (MForecast alan hedef_yil sonuc);
      Print MSeparator; Print MSeparator],
     Some (mkTahmin alan hedef_yil sonuc (LmArtifact years y_vals coef) "lm")).
Proof.
  cbv zeta. intros H.
  pose proof (nodup_length_le
                (map fst (map (fun r => (Yil r, YayinSayisi r))
                              (rows_of df alan)))) as Hlen.
  rewrite !length_map in Hlen.
  unfold forecast_one.
  destruct (rows_of df alan) as [|r rs] eqn:E.
  - simpl in H. lia.
  - rewrite length_map.
    replace (Z.of_nat (List.length (r :: rs)) <? 2) with false
      by (symmetry; apply Z.ltb_ge; lia).
    cbn [String.eqb Ascii.eqb Bool.eqb andb].
    match goal with
    | |- context [Z.of_nat ?n <? 2] =>
        replace (Z.of_nat n <? 2) with false
          by (symmetry; apply Z.ltb_ge; lia)
    end.
    reflexivity.
Qed.

(** C3.  For a subject observed in at least two distinct years, the [lm]
    path fits the line whose squared error is least among all lines,
    evaluates it at the target year, replaces a negative value by zero
    and reports the nearest integer; the subject is fitted and its entry
    recorded.  On the years 2016 to 2020 with counts 10, 20, 30, 40, 50
    the line has slope 10 and the forecast for 2026 is 110. *)
Theorem lm_forecast {rt : PyRuntime} (df : frame) (hedef_yil : Z)
    (alan : string) :
  let series := map (fun r => (Yil r, YayinSayisi r)) (rows_of df alan) in
  let years := map (fun p => inject_Z (fst p)) series in
  let y_vals := map (fun p => inject_Z (snd p)) series in
  let coef := polyfit1 years y_vals in
  let y_fit := polyval1 coef (inject_Z hedef_yil) in
  (2 <= List.length (np_unique (map fst series)))%nat ->
  (forall a b,
     (sq_error (fst coef) (snd coef) years y_vals
      <= sq_error a b years y_vals)%Q)
  /\ (exists sonuc,
        forecast_one df hedef_yil "lm" alan
        = ([FitLm alan; Print (MForecast alan hedef_yil sonuc);
            Print MSeparator; Print MSeparator],
           Some (mkTahmin alan hedef_yil sonuc
                          (LmArtifact years y_vals coef) "lm"))
        /\ sonuc = py_round (clamp0 y_fit)
        /\ ((y_fit < 0)%Q -> sonuc = 0)
        /\ ((0 <= y_fit)%Q ->
            (inject_Z sonuc - (1 # 2) <= y_fit
             /\ y_fit <= inject_Z sonuc + (1 # 2))%Q)
        /\ 0 <= sonuc)
  /\ (let x := map inject_Z [2016; 2017; 2018; 2019; 2020] in
      let y := map inject_Z [10; 20; 30; 40; 50] in
      (fst (polyfit1 x y) == 10)%Q
      /\ (lm_prediction x y 2026 == 110)%Q
      /\ py_round (lm_prediction x y 2026) = 110
      /\ option_map t_sonuc (snd (forecast_one df_linear 2026 "lm" "Chemistry"))
         = Some 110).
Proof.
  intros series years y_vals coef y_fit H.
  split; [|split].
  - intros a b. now apply lm_least_squares.
  - exists (py_round (clamp0 y_fit)).
    split; [now apply forecast_one_lm|]. split; [reflexivity|].
    split; [|split].
    + intros Hneg. now rewrite clamp0_negative.
    + intros Hpos. pose proof (py_round_near (clamp0 y_fit)) as Hn.
      rewrite (clamp0_id _ Hpos) in Hn at 2 3. exact Hn.
    + apply py_round_nonneg. apply clamp0_nonneg.
  - cbv zeta. repeat split; vm_compute; reflexivity.
Qed.

Lemma lm_forecast_witness :
  option_map t_sonuc
    (snd (@forecast_one AsciiRuntime.runtime df_single 2030 "lm" "Physics"))
  = Some 21.
Proof.
  destruct (@lm_forecast AsciiRuntime.runtime df_single 2030 "Physics")
    as (_ & (sonuc & Heq & Hs & _) & _).
  - vm_compute. lia.
  - rewrite Heq. cbn [snd option_map t_sonuc]. rewrite Hs.
    vm_compute. reflexivity.
Defined.

(** ** C6: subjects without enough data *)

Section Dispatcher.
Context {rt : PyRuntime}.

Lemma forecast_one_alan (df : frame) (hedef_yil : Z) (model_sec alan : string)
    (tr : list event) (t : tahmin) :
  forecast_one df hedef_yil model_sec alan = (tr, Some t) -> t_alan t = alan.
Proof.
  unfold forecast_one.
  destruct (rows_of df alan) as [|r rs]; [discriminate|].
  destruct (Z.of_nat _ <? 2); [discriminate|].
  destruct (String.eqb model_sec "lm").
  - destruct (Z.of_nat _ <? 2); [discriminate|].
    intros [= _ <-]. reflexivity.
  - destruct (filter _ _); [discriminate|].
    intros [= _ <-]. reflexivity.
Qed.

Lemma forecast_all_cons (df : frame) (hedef_yil : Z) (model_sec alan : string)
    (rest : list string) :
  forecast_all df hedef_yil model_sec (alan :: rest)
  = (fst (forecast_one df hedef_yil model_sec alan)
     ++ fst (forecast_all df hedef_yil model_sec rest),
     match snd (forecast_one df hedef_yil model_sec alan) with
     | Some t => t :: snd (forecast_all df hedef_yil model_sec rest)
     | None => snd (forecast_all df hedef_yil model_sec rest)
     end).
Proof.
  cbn [forecast_all].
  destruct (forecast_one df hedef_yil model_sec alan) as [tr entry].
  destruct (forecast_all df hedef_yil model_sec rest) as [tr' res].
  reflexivity.
Qed.

Lemma forecast_all_entries (df : frame) (hedef_yil : Z) (model_sec : string)
    (eslesen : list string) (t : tahmin) :
  In t (snd (forecast_all df hedef_yil model_sec eslesen)) ->
  exists tr, forecast_one df hedef_yil model_sec (t_alan t) = (tr, Some t).
Proof.
  induction eslesen as [|alan rest IH]; [intros []|].
  rewrite forecast_all_cons. cbn [snd].
  destruct (forecast_one df hedef_yil model_sec alan) as [tr [t'|]] eqn:E;
    cbn [snd]; [|exact IH].
  intros [<-|Hin]; [|now apply IH].
  exists tr. now rewrite (forecast_one_alan _ _ _ _ _ _ E).
Qed.

Lemma forecast_one_skipped (df : frame) (hedef_yil : Z)
    (model_sec alan : string) :
  (List.length (rows_of df alan) < 2)%nat
  \/ (model_sec = "lm"
      /\ (List.length (np_unique (map Yil (rows_of df alan))) < 2)%nat) ->
  exists warning,
    (warning = MSubjectNotFound alan \/ warning = MNotEnoughData alan
     \/ (model_sec = "lm" /\ warning = MNotEnoughYears alan))
    /\ forecast_one df hedef_yil model_sec alan = ([Print warning], None).
Proof.
  intros H. unfold forecast_one.
  destruct (rows_of df alan) as [|r rs] eqn:E; [eauto|].
  rewrite length_map.
  destruct (Z.of_nat (List.length (r :: rs)) <? 2) eqn:E1; [eauto 6|].
  apply Z.ltb_ge in E1.
  destruct H as [H|[-> H]]; [lia|].
  cbn [String.eqb Ascii.eqb Bool.eqb andb].
  rewrite map_map. cbn [fst].
  replace (Z.of_nat (List.length (np_unique (map (fun x => Yil x) (r :: rs))))
           <? 2) with true;
    [eauto 8|].
  symmetry. apply Z.ltb_lt.
  change (map (fun x => Yil x) (r :: rs)) with (map Yil (r :: rs)). lia.
Qed.
End Dispatcher.

(** C6.  A subject with fewer than two rows in the table (and, on the
    [lm] path, one with fewer than two distinct years) is answered by one
    warning and nothing else: no model is fitted, no entry is recorded
    for it in any run of the dispatcher, and the dispatcher goes on with
    the subjects that follow. *)
Theorem insufficient_data_skipped {rt : PyRuntime} (df : frame)
    (hedef_yil : Z) (model_sec alan : string) (rest : list string) :
  (List.length (rows_of df alan) < 2)%nat
  \/ (model_sec = "lm"
      /\ (List.length (np_unique (map Yil (rows_of df alan))) < 2)%nat) ->
  exists warning,
    (warning = MSubjectNotFound alan \/ warning = MNotEnoughData alan
     \/ (model_sec = "lm" /\ warning = MNotEnoughYears alan))
    /\ forecast_one df hedef_yil model_sec alan = ([Print warning], None)
    /\ forecast_all df hedef_yil model_sec (alan :: rest)
       = (Print warning :: fst (forecast_all df hedef_yil model_sec rest),
          snd (forecast_all df hedef_yil model_sec rest))
    /\ (forall eslesen t,
          In t (snd (forecast_all df hedef_yil model_sec eslesen)) ->
          t_alan t <> alan).
Proof.
  intros H.
  destruct (forecast_one_skipped df hedef_yil model_sec alan H)
    as (warning & Hw & Hone).
  exists warning. split; [exact Hw|]. split; [exact Hone|]. split.
  - rewrite forecast_all_cons, Hone. reflexivity.
  - intros eslesen t Hin Ealan.
    destruct (forecast_all_entries _ _ _ _ _ Hin) as [tr Ht].
    rewrite Ealan, Hone in Ht. discriminate.
Qed.

Lemma insufficient_data_skipped_witness :
  @forecast_all AsciiRuntime.runtime df_single 2030 "prophet"
                ["Chemistry"; "Physics"]
  = (Print (MNotEnoughData "Chemistry")
       :: fst (@forecast_all AsciiRuntime.runtime df_single 2030 "prophet"
                             ["Physics"]),
     snd (@forecast_all AsciiRuntime.runtime df_single 2030 "prophet"
                        ["Physics"])).
Proof.
  destruct (@insufficient_data_skipped AsciiRuntime.runtime df_single 2030
              "prophet" "Chemistry" ["Physics"])
    as (warning & Hw & Hone & Hall & _).
  - left. vm_compute. lia.
  - rewrite Hall. f_equal. f_equal.
    vm_compute in Hone. now injection Hone as <-.
Defined.

(** ** C7 and C8: how a pass of the menu loop ends *)

Section Passes.
Context {rt : PyRuntime}.

Lemma say_bind {B} (tr : list event) (k : unit -> console B)
    (ins : list input_ev) :
  bind (say tr) k ins = emit tr (k tt ins).
Proof. reflexivity. Qed.

Lemma bind_bind {A B C} (m : console A) (k : A -> console B)
    (h : B -> console C) (ins : list input_ev) :
  bind (bind m k) h ins = bind m (fun a => bind (k a) h) ins.
Proof.
  unfold bind. destruct (m ins) as [tr a rest|tr why]; [|reflexivity].
  destruct (k a rest) as [tr' b rest'|tr' why]; [|reflexivity].
  simpl. destruct (h b rest'); simpl; now rewrite ?app_assoc.
Qed.

Lemma loop_body_menu (df : frame) (lo hi : Z) (ins : list input_ev) :
  exists o,
    loop_body df lo hi ins
    = emit [Print MSeparator; Print MMenuTitle; Print MMenuOption1;
            Print MMenuOption2; Print MSeparator] o.
Proof.
  unfold loop_body, matching_stage, show_prediction_menu.
  rewrite bind_bind, say_bind. eauto.
Qed.

Lemma menu_loop_step (passes : nat) (df : frame) (lo hi : Z)
    (ins rest : list input_ev) (tr : list event) :
  loop_body df lo hi ins = Done tr tt rest ->
  menu_loop (S passes) df lo hi ins = emit tr (menu_loop passes df lo hi rest).
Proof.
  intros H. cbn [menu_loop].
  now rewrite (bind_Done _ (fun _ => menu_loop passes df lo hi) _ _ _ _ H).
Qed.

Lemma closing_stage_empty (ins : list input_ev) :
  closing_stage [] ins
  = emit [Print MNoForecasts; Print MSeparator; Print MCompleted;
          Print MSeparator] (repeat_prompt ins).
Proof.
  unfold closing_stage, save_stage, repeat_stage.
  rewrite !say_bind, emit_emit. reflexivity.
Qed.

Lemma repeat_prompt_yes (raw : string) (rest : list input_ev) :
  dict_get yesno_mapping (lower (strip raw)) = Some "evet" ->
  repeat_prompt (Line raw :: rest)
  = Done [Prompt PRepeat; Print MRestarting; Sleep] tt rest.
Proof.
  intros H. unfold repeat_prompt, bind. cbn [ask_yesno]. cbv zeta.
  destruct (String.eqb (lower (strip raw)) "") eqn:E.
  - apply String.eqb_eq in E. rewrite E in H. discriminate.
  - rewrite H. reflexivity.
Qed.

Lemma repeat_prompt_no (raw : string) (rest : list input_ev) :
  lower (strip raw) = ""
  \/ dict_get yesno_mapping (lower (strip raw)) = Some "hayır" ->
  repeat_prompt (Line raw :: rest)
  = Halt [Prompt PRepeat; Print MTerminated; Print MSeparator] Exited.
Proof.
  intros H. unfold repeat_prompt, bind. cbn [ask_yesno]. cbv zeta.
  destruct H as [H|H].
  - rewrite H. reflexivity.
  - destruct (String.eqb (lower (strip raw)) "") eqn:E.
    + reflexivity.
    + rewrite H. reflexivity.
Qed.
End Passes.

(** C7, as stated, fails: a pass whose forecast list is empty does not
    go back to the menu when the user answers the closing question with
    ENTER; the process ends. *)
Lemma empty_forecast_may_exit :
  @matching_stage AsciiRuntime.runtime df_single
    [Line "2"; Line ""; Line "chemistry"; Line ""; Line "lm"; Line ""]
  = Done [Print MSeparator; Print MMenuTitle; Print MMenuOption1;
          Print MMenuOption2; Print MSeparator; Prompt PChoice;
          Prompt PShowList; Prompt PSubjects]
         (Some ["Chemistry"]) [Line ""; Line "lm"; Line ""]
  /\ @forecast_stage AsciiRuntime.runtime df_single 2025 2124 ["Chemistry"]
       [Line ""; Line "lm"; Line ""]
     = Done [Print MSeparator; Prompt (PYear 2025 2124 2026); Prompt PModel;
             Print (MNotEnoughData "Chemistry")]
            [] [Line ""]
  /\ @loop_body AsciiRuntime.runtime df_single 2025 2124
       [Line "2"; Line ""; Line "chemistry"; Line ""; Line "lm"; Line ""]
     = Halt [Print MSeparator; Print MMenuTitle; Print MMenuOption1;
             Print MMenuOption2; Print MSeparator; Prompt PChoice;
             Prompt PShowList; Prompt PSubjects; Print MSeparator;
             Prompt (PYear 2025 2124 2026); Prompt PModel;
             Print (MNotEnoughData "Chemistry"); Print MNoForecasts;
             Print MSeparator; Print MCompleted; Print MSeparator;
             Prompt PRepeat; Print MTerminated; Print MSeparator]
            Exited.
Proof. repeat split; vm_compute; reflexivity. Qed.

(** C7, amended.  When the forecast list of a pass is empty, the pass
    reports the failure, does not ask whether to save charts, and goes on
    to the closing question; it returns to the menu when the answer is
    yes, and the process ends when the answer is no or empty. *)
Theorem empty_forecast_asks_repeat {rt : PyRuntime} (df : frame) (lo hi : Z)
    (ins rest0 rest1 : list input_ev) (tr0 tr1 : list event)
    (alan : string) (more : list string) :
  matching_stage df ins = Done tr0 (Some (alan :: more)) rest0 ->
  forecast_stage df lo hi (alan :: more) rest0 = Done tr1 [] rest1 ->
  loop_body df lo hi ins
  = emit (tr0 ++ tr1 ++ [Print MNoForecasts; Print MSeparator;
                         Print MCompleted; Print MSeparator])
         (repeat_prompt rest1)
  /\ (forall raw rest,
        dict_get yesno_mapping (lower (strip raw)) = Some "evet" ->
        repeat_prompt (Line raw :: rest)
        = Done [Prompt PRepeat; Print MRestarting; Sleep] tt rest)
  /\ (forall raw rest,
        lower (strip raw) = ""
        \/ dict_get yesno_mapping (lower (strip raw)) = Some "hayır" ->
        repeat_prompt (Line raw :: rest)
        = Halt [Prompt PRepeat; Print MTerminated; Print MSeparator] Exited).
Proof.
  intros Hm Hf. split; [|split].
  - unfold loop_body. rewrite (bind_Done _ _ _ _ _ _ Hm).
    rewrite (bind_Done _ _ _ _ _ _ Hf).
    rewrite closing_stage_empty, !emit_emit, <- app_assoc. reflexivity.
  - apply repeat_prompt_yes.
  - apply repeat_prompt_no.
Qed.

Lemma empty_forecast_asks_repeat_witness :
  @loop_body AsciiRuntime.runtime df_single 2025 2124
    [Line "2"; Line ""; Line "chemistry"; Line ""; Line "lm"; Line "E"]
  = Done [Print MSeparator; Print MMenuTitle; Print MMenuOption1;
          Print MMenuOption2; Print MSeparator; Prompt PChoice;
          Prompt PShowList; Prompt PSubjects; Print MSeparator;
          Prompt (PYear 2025 2124 2026); Prompt PModel;
          Print (MNotEnoughData "Chemistry"); Print MNoForecasts;
          Print MSeparator; Print MCompleted; Print MSeparator;
          Prompt PRepeat; Print MRestarting; Sleep]
         tt [].
Proof.
  destruct (@empty_forecast_asks_repeat AsciiRuntime.runtime df_single
              2025 2124
              [Line "2"; Line ""; Line "chemistry"; Line ""; Line "lm";
               Line "E"]
              [Line ""; Line "lm"; Line "E"] [Line "E"]
              [Print MSeparator; Print MMenuTitle; Print MMenuOption1;
               Print MMenuOption2; Print MSeparator; Prompt PChoice;
               Prompt PShowList; Prompt PSubjects]
              [Print MSeparator; Prompt (PYear 2025 2124 2026);
               Prompt PModel; Print (MNotEnoughData "Chemistry")]
              "Chemistry" [])
    as (Hpass & Hyes & _).
  - vm_compute. reflexivity.
  - vm_compute. reflexivity.
  - rewrite Hpass, (Hyes "E" []) by reflexivity. reflexivity.
Defined.

Section Selection.
Context {rt : PyRuntime}.

Lemma before_emit {A} (t : list event) (o : outcome A) :
  Forall (fun e => forecast_event e = false) t ->
  before_forecast o -> before_forecast (emit t o).
Proof.
  unfold before_forecast. rewrite trace_emit. intros H1 H2.
  apply Forall_app. now split.
Qed.

Lemma before_bind {A B} (m : console A) (k : A -> console B)
    (ins : list input_ev) :
  before_forecast (m ins) ->
  (forall a rest, before_forecast (k a rest)) ->
  before_forecast (bind m k ins).
Proof.
  unfold bind. intros Hm Hk.
  destruct (m ins) as [tr a rest|tr why]; [|exact Hm].
  apply before_emit; [exact Hm | apply Hk].
Qed.

Lemma before_say (tr : list event) (ins : list input_ev) :
  Forall (fun e => forecast_event e = false) tr ->
  before_forecast (say tr ins).
Proof. intros H. exact H. Qed.

Lemma before_ret {A} (a : A) (ins : list input_ev) :
  before_forecast (ret a ins).
Proof. constructor. Qed.

Lemma before_ask_choice (p : prompt) (options : list string)
    (default : option string) (opts_lower : dict string)
    (ins : list input_ev) :
  forecast_event (Prompt p) = false ->
  before_forecast (ask_choice_loop p options default opts_lower ins).
Proof.
  intros Hp. induction ins as [|[s|] ins IH]; cbn [ask_choice_loop].
  - repeat constructor. exact Hp.
  - cbv zeta.
    destruct (if String.eqb (strip s) "" then default else None).
    + repeat constructor. exact Hp.
    + destruct (dict_get opts_lower (lower (strip s))).
      * repeat constructor. exact Hp.
      * apply before_emit; [|exact IH]. repeat constructor. exact Hp.
  - apply before_emit; [|exact IH]. repeat constructor. exact Hp.
Qed.

Lemma before_ask_yesno (p : prompt) (default : option string)
    (ins : list input_ev) :
  forecast_event (Prompt p) = false ->
  before_forecast (ask_yesno p default ins).
Proof.
  intros Hp. induction ins as [|[s|] ins IH]; cbn [ask_yesno].
  - repeat constructor. exact Hp.
  - cbv zeta.
    destruct (if String.eqb (lower (strip s)) "" then default else None).
    + repeat constructor. exact Hp.
    + destruct (dict_get yesno_mapping (lower (strip s))).
      * repeat constructor. exact Hp.
      * apply before_emit; [|exact IH]. repeat constructor. exact Hp.
  - apply before_emit; [|exact IH]. repeat constructor. exact Hp.
Qed.

Lemma before_ask_alan_input (ins : list input_ev) :
  before_forecast (ask_alan_input ins).
Proof.
  induction ins as [|[s|] ins IH]; cbn [ask_alan_input].
  - repeat constructor.
  - cbv zeta. destruct (String.eqb (strip s) "").
    + apply before_emit; [|exact IH]. repeat constructor.
    + repeat constructor.
  - repeat constructor.
Qed.

Lemma before_print_top (i : nat) (alanlar : list string) :
  Forall (fun e => forecast_event e = false) (print_top i alanlar).
Proof.
  revert i; induction alanlar as [|alan rest IH]; intros i; simpl;
    constructor; [reflexivity | apply IH].
Qed.

Lemma before_matching_stage (df : frame) (ins : list input_ev) :
  before_forecast (matching_stage df ins).
Proof.
  unfold matching_stage, show_prediction_menu.
  apply before_bind; [apply before_say; repeat constructor|].
  intros _ ins1. apply before_bind.
  { apply before_ask_choice. reflexivity. }
  intros secim ins2. unfold select_subjects.
  destruct (String.eqb secim "1").
  - apply before_bind; [|intros; apply before_ret].
    apply before_say. repeat constructor. apply before_print_top.
  - destruct (String.eqb secim "2").
    + apply before_bind; [apply before_ask_yesno; reflexivity|].
      intros alan_goster ins3. apply before_bind.
      * destruct (String.eqb alan_goster "evet");
          [apply before_say; repeat constructor | apply before_ret].
      * intros _ ins4. apply before_bind; [apply before_ask_alan_input|].
        intros; apply before_ret.
    + apply before_bind; [|intros; apply before_ret].
      apply before_say. repeat constructor.
Qed.
End Selection.

(** C8.  When subject matching ends with an empty list, in either mode,
    the pass prints the failure and ends in a [continue]: nothing of the
    year prompt, the model prompt or the dispatcher happens in the pass,
    the process goes on, and the next pass opens with the menu. *)
Theorem no_match_returns_to_menu {rt : PyRuntime} (df : frame) (lo hi : Z)
    (ins rest : list input_ev) (tr : list event) :
  matching_stage df ins = Done tr (Some []) rest ->
  let pass := tr ++ [Print MNoMatch; Print MSeparator; Sleep] in
  loop_body df lo hi ins = Done pass tt rest
  /\ Forall (fun e => forecast_event e = false) pass
  /\ (forall passes,
        menu_loop (S passes) df lo hi ins
        = emit pass (menu_loop passes df lo hi rest))
  /\ (exists o,
        loop_body df lo hi rest
        = emit [Print MSeparator; Print MMenuTitle; Print MMenuOption1;
                Print MMenuOption2; Print MSeparator] o).
Proof.
  intros H pass.
  assert (Hbody : loop_body df lo hi ins = Done pass tt rest).
  { unfold loop_body. rewrite (bind_Done _ _ _ _ _ _ H). reflexivity. }
  split; [exact Hbody|]. split; [|split].
  - apply Forall_app. split; [|repeat constructor].
    pose proof (before_matching_stage df ins) as Hb.
    unfold before_forecast in Hb. rewrite H in Hb. exact Hb.
  - intros passes. now apply menu_loop_step.
  - apply loop_body_menu.
Qed.

Lemma no_match_returns_to_menu_witness :
  @loop_body AsciiRuntime.runtime df_single 2025 2124
    [Line "2"; Line "h"; Line "zoology, art"; Line "1"]
  = Done [Print MSeparator; Print MMenuTitle; Print MMenuOption1;
          Print MMenuOption2; Print MSeparator; Prompt PChoice;
          Prompt PShowList; Prompt PSubjects; Print MNoMatch;
          Print MSeparator; Sleep]
         tt [Line "1"].
Proof.
  apply (@no_match_returns_to_menu AsciiRuntime.runtime df_single 2025 2124
           [Line "2"; Line "h"; Line "zoology, art"; Line "1"] [Line "1"]
           [Print MSeparator; Print MMenuTitle; Print MMenuOption1;
            Print MMenuOption2; Print MSeparator; Prompt PChoice;
            Prompt PShowList; Prompt PSubjects]).
  vm_compute. reflexivity.
Defined.

(** * Further properties of the helpers, the matcher and the loop *)

Section DictComprehension2.
Context {A V : Type} (key : A -> string) (value : A -> V).
Local Notation "'step'" :=
  (fun (d : dict V) (x : A) => dict_set d (key x) (value x)).

Lemma fold_set_get_other (xs : list A) (d : dict V) (k : string) :
  ~ In k (map key xs) ->
  dict_get (fold_left step xs d) k = dict_get d k.
Proof.
  revert d; induction xs as [|x xs IH]; intros d H; simpl; [reflexivity|].
  rewrite IH by (intros Hin; apply H; now right).
  rewrite dict_get_set.
  destruct (String.eqb (key x) k) eqn:E; [|reflexivity].
  apply String.eqb_eq in E. exfalso. apply H. now left.
Qed.

Lemma fold_set_get_in (xs : list A) (d : dict V) (x : A) :
  NoDup (map key xs) -> In x xs ->
  dict_get (fold_left step xs d) (key x) = Some (value x).
Proof.
  revert d; induction xs as [|y xs IH]; intros d Hnd Hin; [destruct Hin|].
  simpl in Hnd. inversion Hnd as [|? ? Hnotin Hnd']; subst.
  destruct Hin as [->|Hin]; simpl.
  - rewrite fold_set_get_other by exact Hnotin.
    rewrite dict_get_set, String.eqb_refl. reflexivity.
  - now apply IH.
Qed.
End DictComprehension2.

Section HelperFacts.
Context {rt : PyRuntime}.

Lemma ask_choice_loop_returns (p : prompt) (options : list string)
    (default : option string) (opts_lower : dict string)
    (ins rest : list input_ev) (tr : list event) (v : string) :
  ask_choice_loop p options default opts_lower ins = Done tr v rest ->
  exists consumed raw,
    ins = consumed ++ Line raw :: rest
    /\ ((strip raw = "" /\ default = Some v)
        \/ dict_get opts_lower (lower (strip raw)) = Some v).
Proof.
  revert tr. induction ins as [|[s|] ins IH]; intros tr H;
    cbn [ask_choice_loop] in H; [discriminate| |].
  - cbv zeta in H. destruct (String.eqb (strip s) "") eqn:E.
    + destruct default as [d|].
      * injection H as <- <- <-. exists [], s. split; [reflexivity|].
        left. apply String.eqb_eq in E. auto.
      * destruct (dict_get opts_lower (lower (strip s))) as [o|] eqn:Eo.
        -- injection H as <- <- <-. exists [], s. auto.
        -- apply emit_Done_inv in H. destruct H as (tr' & H & _).
           destruct (IH _ H) as (c & raw & -> & Hc).
           exists (Line s :: c), raw. auto.
    + destruct (dict_get opts_lower (lower (strip s))) as [o|] eqn:Eo.
      * injection H as <- <- <-. exists [], s. auto.
      * apply emit_Done_inv in H. destruct H as (tr' & H & _).
        destruct (IH _ H) as (c & raw & -> & Hc).
        exists (Line s :: c), raw. auto.
  - apply emit_Done_inv in H. destruct H as (tr' & H & _).
    destruct (IH _ H) as (c & raw & -> & Hc).
    exists (Interrupt :: c), raw. auto.
Qed.

Lemma yesno_mapping_values (k v : string) :
  dict_get yesno_mapping k = Some v -> v = "evet" \/ v = "hayır".
Proof.
  unfold yesno_mapping. cbn [dict_get].
  repeat match goal with
         | |- context [if String.eqb ?a k then _ else _] =>
             destruct (String.eqb a k)
         end; intros [= <-]; auto.
Qed.

Lemma ask_yesno_returns_aux (p : prompt) (default : option string)
    (ins rest : list input_ev) (tr : list event) (v : string) :
  ask_yesno p default ins = Done tr v rest ->
  exists consumed raw,
    ins = consumed ++ Line raw :: rest
    /\ ((lower (strip raw) = "" /\ default = Some v)
        \/ dict_get yesno_mapping (lower (strip raw)) = Some v).
Proof.
  revert tr. induction ins as [|[s|] ins IH]; intros tr H;
    cbn [ask_yesno] in H; [discriminate| |].
  - cbv zeta in H. destruct (String.eqb (lower (strip s)) "") eqn:E.
    + destruct default as [d|].
      * injection H as <- <- <-. exists [], s. split; [reflexivity|].
        left. apply String.eqb_eq in E. auto.
      * destruct (dict_get yesno_mapping (lower (strip s))) as [o|] eqn:Eo.
        -- injection H as <- <- <-. exists [], s. auto.
        -- apply emit_Done_inv in H. destruct H as (tr' & H & _).
           destruct (IH _ H) as (c & raw & -> & Hc).
           exists (Line s :: c), raw. auto.
    + destruct (dict_get yesno_mapping (lower (strip s))) as [o|] eqn:Eo.
      * injection H as <- <- <-. exists [], s. auto.
      * apply emit_Done_inv in H. destruct H as (tr' & H & _).
        destruct (IH _ H) as (c & raw & -> & Hc).
        exists (Line s :: c), raw. auto.
  - apply emit_Done_inv in H. destruct H as (tr' & H & _).
    destruct (IH _ H) as (c & raw & -> & Hc).
    exists (Interrupt :: c), raw. auto.
Qed.

Lemma only_waits_emit {A} (t : list event) (o : outcome A) :
  only_waits o -> only_waits (emit t o).
Proof. destruct o; simpl; auto. Qed.

Lemma ask_choice_only_waits p options default opts_lower ins :
  only_waits (ask_choice_loop p options default opts_lower ins).
Proof.
  induction ins as [|[s|] ins IH]; cbn [ask_choice_loop]; [reflexivity| |].
  - cbv zeta. destruct (if String.eqb (strip s) "" then default else None);
      [exact I|].
    destruct (dict_get opts_lower (lower (strip s))); [exact I|].
    now apply only_waits_emit.
  - now apply only_waits_emit.
Qed.

Lemma ask_yesno_only_waits p default ins :
  only_waits (ask_yesno p default ins).
Proof.
  induction ins as [|[s|] ins IH]; cbn [ask_yesno]; [reflexivity| |].
  - cbv zeta.
    destruct (if String.eqb (lower (strip s)) "" then default else None);
      [exact I|].
    destruct (dict_get yesno_mapping (lower (strip s))); [exact I|].
    now apply only_waits_emit.
  - now apply only_waits_emit.
Qed.

Lemma ask_int_only_waits p default min_val max_val ins :
  only_waits (ask_int p default min_val max_val ins).
Proof.
  induction ins as [|[s|] ins IH]; cbn [ask_int]; [reflexivity| |].
  - cbv zeta. destruct (if String.eqb (strip s) "" then default else None);
      [exact I|].
    destruct (int_of_str (strip s)); [|now apply only_waits_emit].
    destruct (too_small min_val z); [now apply only_waits_emit|].
    destruct (too_large max_val z); [now apply only_waits_emit|exact I].
  - now apply only_waits_emit.
Qed.
End HelperFacts.

(** X1.  [ask_choice] returns only after it has read a line: either the
    line is empty after stripping and the value is the default, or the
    value is one of the options and has the same lowercase form as the
    stripped line. *)
Theorem ask_choice_returns {rt : PyRuntime} (p : prompt)
    (options : list string) (default : option string)
    (ins rest : list input_ev) (tr : list event) (v : string) :
  ask_choice p options default ins = Done tr v rest ->
  exists consumed raw,
    ins = consumed ++ Line raw :: rest
    /\ ((strip raw = "" /\ default = Some v)
        \/ (In v options /\ lower v = lower (strip raw))).
Proof.
  unfold ask_choice. intros H. apply ask_choice_loop_returns in H.
  destruct H as (c & raw & E & [H|H]); exists c, raw; (split; [exact E|]).
  - now left.
  - right. unfold dict_comprehension in H. apply fold_set_get in H.
    destruct H as [H|(x & Hin & Hk & <-)]; [discriminate|]. auto.
Qed.

Lemma ask_choice_returns_witness :
  exists consumed raw,
    [Line "x"; Line "LM "; Line "z"] = consumed ++ Line raw :: [Line "z"]
    /\ ((@strip AsciiRuntime.runtime raw = "" /\ Some "prophet" = Some "lm")
        \/ (In "lm" ["prophet"; "lm"]
            /\ @lower AsciiRuntime.runtime "lm"
               = @lower AsciiRuntime.runtime
                   (@strip AsciiRuntime.runtime raw))).
Proof.
  eapply (@ask_choice_returns AsciiRuntime.runtime PModel
            ["prophet"; "lm"] (Some "prophet")).
  reflexivity.
Defined.

(** X2.  When the options have distinct lowercase forms, an answer
    that equals an option up to case and surrounding blanks selects that
    option, as it is spelled in the list. *)
Theorem ask_choice_any_case {rt : PyRuntime} (p : prompt)
    (options : list string) (default : option string) (o raw : string)
    (rest : list input_ev) :
  NoDup (map lower options) ->
  In o options ->
  lower (strip raw) = lower o ->
  strip raw <> "" \/ default = None ->
  ask_choice p options default (Line raw :: rest) = Done [Prompt p] o rest.
Proof.
  intros Hnd Hin Hlow Hne. unfold ask_choice. cbn [ask_choice_loop]. cbv zeta.
  assert (Hd : (if String.eqb (strip raw) "" then default else None) = None).
  { destruct Hne as [Hne| ->]; [|now destruct (String.eqb _ _)].
    apply String.eqb_neq in Hne. now rewrite Hne. }
  rewrite Hd, Hlow. unfold dict_comprehension.
  rewrite (fold_set_get_in lower (fun o => o) options [] o Hnd Hin).
  reflexivity.
Qed.

Lemma ask_choice_any_case_witness :
  @ask_choice AsciiRuntime.runtime PModel ["prophet"; "lm"] (Some "prophet")
              [Line " Lm "; Line "x"]
  = Done [Prompt PModel] "lm" [Line "x"].
Proof.
  apply (@ask_choice_any_case AsciiRuntime.runtime PModel
           ["prophet"; "lm"] (Some "prophet") "lm" " Lm " [Line "x"]).
  - repeat constructor; simpl; intuition discriminate.
  - simpl. tauto.
  - reflexivity.
  - left. discriminate.
Defined.

(** X3.  Whatever [ask_yesno] returns is "evet", "hayır" or the
    default it was given. *)
Theorem ask_yesno_returns {rt : PyRuntime} (p : prompt)
    (default : option string) (ins rest : list input_ev) (tr : list event)
    (v : string) :
  ask_yesno p default ins = Done tr v rest ->
  v = "evet" \/ v = "hayır" \/ default = Some v.
Proof.
  intros H. apply ask_yesno_returns_aux in H.
  destruct H as (c & raw & _ & [[_ H]|H]); [auto|].
  apply yesno_mapping_values in H. tauto.
Qed.

Lemma ask_yesno_returns_witness :
  "evet" = "evet" \/ "evet" = "hayır" \/ Some "hayır" = Some "evet".
Proof.
  eapply (@ask_yesno_returns AsciiRuntime.runtime PSave (Some "hayır")
            [Interrupt; Line "maybe"; Line " YES "; Line "x"] [Line "x"]).
  reflexivity.
Defined.

(** X4.  Whatever the user types or interrupts, [ask_choice],
    [ask_yesno] and [ask_int] neither exit nor let an exception escape:
    they return a value or keep waiting for input. *)
Theorem helpers_only_wait {rt : PyRuntime} (p : prompt)
    (ins : list input_ev) :
  (forall options default, only_waits (ask_choice p options default ins))
  /\ (forall default, only_waits (ask_yesno p default ins))
  /\ (forall default min_val max_val,
        only_waits (ask_int p default min_val max_val ins)).
Proof.
  split; [|split].
  - intros. apply ask_choice_only_waits.
  - intros. apply ask_yesno_only_waits.
  - intros. apply ask_int_only_waits.
Qed.

Lemma prompts_app (t1 t2 : list event) :
  prompts (t1 ++ t2) = (prompts t1 + prompts t2)%nat.
Proof. unfold prompts. now rewrite filter_app, length_app. Qed.

(** X5.  As long as every answer is an interrupt, text that is not an
    integer, or an integer outside the bounds, [ask_int] does not return:
    it shows the prompt again after each answer and waits. *)
Theorem ask_int_refuses {rt : PyRuntime} (p : prompt) (default : option Z)
    (lo hi : Z) (ins : list input_ev) :
  Forall (refused_int default lo hi) ins ->
  exists tr,
    ask_int p default (Some lo) (Some hi) ins = Halt tr Blocked
    /\ prompts tr = S (List.length ins).
Proof.
  induction ins as [|ev ins IH]; intros H.
  - exists [Prompt p]. split; reflexivity.
  - inversion H as [|? ? Hev Hins]; subst.
    destruct (IH Hins) as (tr & Htr & Hn).
    destruct ev as [s|]; cbn [ask_int]; [cbv zeta|].
    + destruct Hev as [Hne Hbad].
      assert (Hd : (if String.eqb (strip s) "" then default else None) = None).
      { destruct Hne as [Hne| ->]; [|now destruct (String.eqb _ _)].
        apply String.eqb_neq in Hne. now rewrite Hne. }
      rewrite Hd. destruct (int_of_str (strip s)) as [y|].
      * cbn [too_small too_large].
        destruct (y <? lo) eqn:E1.
        -- rewrite Htr. eexists. split; [reflexivity|].
           rewrite prompts_app, Hn. reflexivity.
        -- apply Z.ltb_ge in E1.
           replace (y >? hi) with true
             by (rewrite Z.gtb_ltb; symmetry; apply Z.ltb_lt; lia).
           rewrite Htr. eexists. split; [reflexivity|].
           rewrite prompts_app, Hn. reflexivity.
      * rewrite Htr. eexists. split; [reflexivity|].
        rewrite prompts_app, Hn. reflexivity.
    + rewrite Htr. eexists. split; [reflexivity|].
      rewrite prompts_app, Hn. reflexivity.
Qed.

Lemma ask_int_refuses_witness :
  exists tr,
    @ask_int AsciiRuntime.runtime PChoice (Some 2026) (Some 2025) (Some 2124)
             [Line "abc"; Interrupt; Line "1999"; Line "3000"]
    = Halt tr Blocked
    /\ prompts tr = 5%nat.
Proof.
  apply (@ask_int_refuses AsciiRuntime.runtime PChoice (Some 2026) 2025 2124
           [Line "abc"; Interrupt; Line "1999"; Line "3000"]).
  apply Forall_cons; [split; [left; discriminate | exact I]|].
  apply Forall_cons; [exact I|].
  apply Forall_cons; [split; [left; discriminate | left; reflexivity]|].
  apply Forall_cons; [split; [left; discriminate | right; reflexivity]|].
  apply Forall_nil.
Defined.

Section SubjectPrompt.
Context {rt : PyRuntime}.

Lemma ask_alan_input_returns_aux (ins rest : list input_ev)
    (tr : list event) (v : string) :
  ask_alan_input ins = Done tr v rest ->
  v <> ""
  /\ exists blanks raw,
       ins = blanks ++ Line raw :: rest
       /\ Forall blank_line blanks
       /\ v = strip raw
       /\ prompts tr = S (List.length blanks).
Proof.
  revert tr. induction ins as [|[s|] ins IH]; intros tr H;
    cbn [ask_alan_input] in H; [discriminate| |discriminate].
  cbv zeta in H. destruct (String.eqb (strip s) "") eqn:E.
  - apply emit_Done_inv in H. destruct H as (tr' & H & ->).
    destruct (IH _ H) as (Hv & b & raw & -> & Hb & Hs & Hn).
    split; [exact Hv|]. exists (Line s :: b), raw.
    split; [reflexivity|]. split.
    + constructor; [|exact Hb]. now apply String.eqb_eq.
    + split; [exact Hs|]. rewrite prompts_app, Hn. reflexivity.
  - injection H as <- <- <-. apply String.eqb_neq in E.
    split; [exact E|]. exists [], s. repeat split. constructor.
Qed.

Lemma ask_alan_input_crash_aux (blanks rest : list input_ev) :
  Forall blank_line blanks ->
  exists tr, ask_alan_input (blanks ++ Interrupt :: rest) = Halt tr Crashed.
Proof.
  induction blanks as [|ev blanks IH]; intros H; simpl.
  - eauto.
  - inversion H as [|? ? Hev Hb]; subst. destruct ev as [s|]; [|destruct Hev].
    simpl in Hev. rewrite Hev. cbn [String.eqb].
    destruct (IH Hb) as [tr Htr]. rewrite Htr. simpl. eauto.
Qed.
End SubjectPrompt.

(** X6.  The subject prompt returns the first line that is not
    blank, stripped; the value is not empty, the lines before it were all
    blank, and each of them was followed by a new prompt. *)
Theorem ask_alan_input_returns {rt : PyRuntime} (ins rest : list input_ev)
    (tr : list event) (v : string) :
  ask_alan_input ins = Done tr v rest ->
  v <> ""
  /\ exists blanks raw,
       ins = blanks ++ Line raw :: rest
       /\ Forall blank_line blanks
       /\ v = strip raw
       /\ prompts tr = S (List.length blanks).
Proof. apply ask_alan_input_returns_aux. Qed.

Lemma ask_alan_input_returns_witness :
  "chemistry" <> ""
  /\ exists blanks raw,
       [Line "  "; Line " chemistry "; Line "x"]
       = blanks ++ Line raw :: [Line "x"]
       /\ Forall (@blank_line AsciiRuntime.runtime) blanks
       /\ "chemistry" = @strip AsciiRuntime.runtime raw
       /\ prompts [Prompt PSubjects; Print MNeedSubject; Prompt PSubjects]
          = S (List.length blanks).
Proof.
  apply (@ask_alan_input_returns AsciiRuntime.runtime
           [Line "  "; Line " chemistry "; Line "x"] [Line "x"]).
  reflexivity.
Defined.

Lemma ask_yesno_line {rt : PyRuntime} (p : prompt) (d answer : string)
    (rest : list input_ev) :
  lower (strip answer) = ""
  \/ (exists a, dict_get yesno_mapping (lower (strip answer)) = Some a) ->
  exists a, ask_yesno p (Some d) (Line answer :: rest)
            = Done [Prompt p] a rest.
Proof.
  intros H. cbn [ask_yesno]. cbv zeta.
  destruct (String.eqb (lower (strip answer)) "") eqn:E; [eauto|].
  destruct H as [H|[a H]].
  - rewrite H in E. discriminate.
  - rewrite H. eauto.
Qed.

(** X7.  In mode 2 an interrupt at the subject prompt is not
    caught: after the answer to the list question and any number of blank
    lines, it ends the run with an escaped exception. *)
Theorem subject_prompt_interrupt_crashes {rt : PyRuntime}
    (df : frame) (m : dict string) (answer : string)
    (blanks rest : list input_ev) :
  lower (strip answer) = ""
  \/ (exists a, dict_get yesno_mapping (lower (strip answer)) = Some a) ->
  Forall blank_line blanks ->
  exists tr,
    select_subjects df m "2" (Line answer :: blanks ++ Interrupt :: rest)
    = Halt tr Crashed.
Proof.
  intros Ha Hb.
  destruct (ask_alan_input_crash_aux blanks rest Hb) as [tr Htr].
  destruct (ask_yesno_line PShowList "hayır" answer
              (blanks ++ Interrupt :: rest) Ha) as [a Hyes].
  unfold select_subjects. cbn [String.eqb Ascii.eqb Bool.eqb andb].
  rewrite (bind_Done _ _ _ _ _ _ Hyes).
  destruct (String.eqb a "evet").
  - rewrite say_bind. rewrite (bind_Halt _ _ _ _ _ Htr). simpl. eauto.
  - unfold bind at 1. cbn [ret emit]. rewrite (bind_Halt _ _ _ _ _ Htr).
    simpl. eauto.
Qed.

Lemma subject_prompt_interrupt_crashes_witness :
  exists tr,
    @select_subjects AsciiRuntime.runtime df_single
      (@alan_mapping AsciiRuntime.runtime df_single) "2"
      (Line "h" :: [Line " "] ++ Interrupt :: [Line "chemistry"])
    = Halt tr Crashed.
Proof.
  apply (@subject_prompt_interrupt_crashes AsciiRuntime.runtime).
  - right. exists "hayır". reflexivity.
  - repeat constructor.
Defined.

Lemma split_comma_not_nil (s : string) : split_comma s <> [].
Proof.
  induction s as [|c s IH]; simpl; [discriminate|].
  destruct (Ascii.eqb c ","); [discriminate|].
  destruct (split_comma s); discriminate.
Qed.

Lemma concat_cons (sep x : string) (l : list string) :
  l <> [] ->
  String.concat sep (x :: l) = (x ++ sep ++ String.concat sep l)%string.
Proof. destruct l; [contradiction | reflexivity]. Qed.

Lemma concat_head (sep : string) (c : ascii) (x : string)
    (l : list string) :
  String.concat sep (String c x :: l) = String c (String.concat sep (x :: l)).
Proof. destruct l; reflexivity. Qed.

(** X8.  Joining the pieces of [split(",")] with commas gives the
    string back; no piece contains a comma and there is at least one
    piece. *)
Theorem split_comma_join (s : string) :
  String.concat "," (split_comma s) = s
  /\ Forall (fun piece => contains "," piece = false) (split_comma s)
  /\ split_comma s <> [].
Proof.
  split; [|split; [|apply split_comma_not_nil]].
  - induction s as [|c s IH]; [reflexivity|].
    cbn [split_comma]. pose proof (split_comma_not_nil s) as Hn.
    destruct (Ascii.eqb c ",") eqn:E.
    + apply Ascii.eqb_eq in E. subst c.
      rewrite concat_cons by exact Hn. now rewrite IH.
    + destruct (split_comma s) as [|piece pieces]; [contradiction|].
      now rewrite concat_head, IH.
  - induction s as [|c s IH]; [repeat constructor|].
    cbn [split_comma]. pose proof (split_comma_not_nil s) as Hn.
    destruct (Ascii.eqb c ",") eqn:E.
    + constructor; [reflexivity | exact IH].
    + destruct (split_comma s) as [|piece pieces]; [contradiction|].
      inversion IH as [|? ? Hp Hps]; subst. constructor; [|exact Hps].
      cbn [contains String.prefix].
      destruct (ascii_dec "," c) as [<-|Hne].
      { rewrite Ascii.eqb_refl in E. discriminate. }
      destruct piece; exact Hp.
Qed.

Section MatchLoops.
Context {rt : PyRuntime}.

Lemma match_user_fold (tokens : list string) (st : store) :
  fold_left match_user_step tokens st
  = mkStore (st_df st) (st_mapping st)
            (st_eslesen st ++ flat_map (matched (st_mapping st)) tokens).
Proof.
  revert st; induction tokens as [|t tokens IH]; intros st; simpl.
  - rewrite app_nil_r. now destruct st.
  - rewrite IH, match_user_step_eq. simpl. unfold matched at 2.
    now rewrite <- app_assoc.
Qed.

Lemma match_top_fold (alanlar : list string) (st : store) :
  fold_left match_top_step alanlar st
  = mkStore (st_df st) (st_mapping st)
            (st_eslesen st
             ++ flat_map (fun alan => matched (st_mapping st) (lower alan))
                         alanlar).
Proof.
  revert st; induction alanlar as [|t alanlar IH]; intros st; simpl.
  - rewrite app_nil_r. now destruct st.
  - rewrite IH, match_top_step_eq, match_user_step_eq. simpl.
    unfold matched at 2. now rewrite <- app_assoc.
Qed.

Lemma matched_label (df : frame) (token v : string) :
  In v (matched (alan_mapping df) token) -> In v (map Alan df).
Proof.
  unfold matched, matcher.
  destruct (first_user_key token (dict_keys (alan_mapping df))) as [k|];
    [|intros []].
  destruct (dict_get (alan_mapping df) k) as [w|] eqn:E; [|intros []].
  intros [<-|[]]. now apply alan_mapping_value in E.
Qed.

Lemma rows_of_label (df : frame) (alan : string) :
  In alan (map Alan df) -> rows_of df alan <> [].
Proof.
  intros H. apply in_map_iff in H. destruct H as (r & <- & Hin).
  assert (Hr : In r (rows_of df (Alan r))).
  { unfold rows_of. apply filter_In. split; [exact Hin|].
    apply String.eqb_refl. }
  intros E. rewrite E in Hr. destruct Hr.
Qed.

Lemma label_matches (df : frame) (alan : string) :
  In alan (map Alan df) ->
  exists v, matcher (alan_mapping df) (lower alan) = Some v.
Proof.
  intros H. destruct (matcher (alan_mapping df) (lower alan)) as [v|] eqn:E;
    [eauto|].
  exfalso. rewrite matcher_none in E.
  apply (E (lower alan)); [now apply alan_mapping_key | now left].
Qed.
End MatchLoops.

(** X9.  Each matching loop leaves the table and the mapping alone
    and collects, token by token and in order, what the matcher returns
    (for the top-10 loop on the lowercase label); duplicates are kept and
    the list is never longer than the list of tokens. *)
Theorem match_loops_collect {rt : PyRuntime} (df : frame) (m : dict string)
    (tokens : list string) :
  match_user df m tokens = mkStore df m (flat_map (matched m) tokens)
  /\ match_top df m tokens
     = mkStore df m (flat_map (fun alan => matched m (lower alan)) tokens)
  /\ (List.length (st_eslesen (match_user df m tokens))
      <= List.length tokens)%nat.
Proof.
  unfold match_user, match_top. rewrite match_user_fold, match_top_fold.
  simpl. split; [reflexivity|]. split; [reflexivity|].
  induction tokens as [|t tokens IH]; simpl; [lia|].
  rewrite length_app. unfold matched at 1.
  destruct (matcher m t); simpl; lia.
Qed.

(** X10.  Every subject the matching loops put into
    [eslesen_alanlar] is a label of the table, so it has rows there and
    the dispatcher never answers it with the "not found" warning of line
    464. *)
Theorem matched_subjects_have_rows {rt : PyRuntime} (df : frame)
    (tokens : list string) (alan : string) :
  In alan (st_eslesen (match_user df (alan_mapping df) tokens))
  \/ In alan (st_eslesen (match_top df (alan_mapping df) tokens)) ->
  In alan (map Alan df)
  /\ rows_of df alan <> []
  /\ (forall hedef_yil model_sec,
        fst (forecast_one df hedef_yil model_sec alan)
        <> [Print (MSubjectNotFound alan)]).
Proof.
  intros H.
  assert (Hl : In alan (map Alan df)).
  { unfold match_user, match_top in H.
    rewrite match_user_fold, match_top_fold in H. simpl in H.
    destruct H as [H|H]; apply in_flat_map in H;
      destruct H as (t & _ & H); now apply matched_label in H. }
  split; [exact Hl|]. pose proof (rows_of_label df alan Hl) as Hr.
  split; [exact Hr|]. intros hedef_yil model_sec. unfold forecast_one.
  destruct (rows_of df alan) as [|r rs]; [contradiction|].
  destruct (Z.of_nat _ <? 2); [simpl; congruence|].
  destruct (String.eqb model_sec "lm").
  - destruct (Z.of_nat _ <? 2); simpl; congruence.
  - destruct (filter _ _); simpl; congruence.
Qed.

Lemma matched_subjects_have_rows_witness :
  In "Physics" (map Alan df_single)
  /\ rows_of df_single "Physics" <> []
  /\ (forall hedef_yil model_sec,
        fst (@forecast_one AsciiRuntime.runtime df_single hedef_yil
                           model_sec "Physics")
        <> [Print (MSubjectNotFound "Physics")]).
Proof.
  apply (@matched_subjects_have_rows AsciiRuntime.runtime df_single
           ["phys"; "zzz"] "Physics").
  left. vm_compute. tauto.
Defined.

Lemma top_alanlar_eq (df : frame) :
  top_alanlar df
  = map fst (nlargest 10 (map (fun alan => (alan, recent_mean df alan))
                              (sort_labels (unique (map Alan (son_5yil df)))))).
Proof. reflexivity. Qed.

Lemma insert_label_perm (a : string) (l : list string) :
  Permutation (insert_label a l) (a :: l).
Proof.
  induction l as [|b l IH]; simpl; [reflexivity|].
  destruct (String.leb a b); [reflexivity|].
  rewrite IH. apply perm_swap.
Qed.

Lemma sort_labels_perm (l : list string) : Permutation (sort_labels l) l.
Proof.
  induction l as [|a l IH]; simpl; [reflexivity|].
  rewrite insert_label_perm. now constructor.
Qed.

Lemma insert_desc_perm (p : string * Q) (l : list (string * Q)) :
  Permutation (insert_desc p l) (p :: l).
Proof.
  induction l as [|q l IH]; simpl; [reflexivity|].
  destruct (Qlt_le_dec (snd p) (snd q)); [|reflexivity].
  rewrite IH. apply perm_swap.
Qed.

Lemma sort_desc_perm (l : list (string * Q)) :
  Permutation (fold_right insert_desc [] l) l.
Proof.
  induction l as [|a l IH]; simpl; [reflexivity|].
  rewrite insert_desc_perm. now constructor.
Qed.

Lemma insert_desc_sorted (p : string * Q) (l : list (string * Q)) :
  StronglySorted not_below l -> StronglySorted not_below (insert_desc p l).
Proof.
  induction l as [|q l IH]; intros H; simpl.
  - repeat constructor.
  - inversion H as [|? ? Hl Hq]; subst.
    destruct (Qlt_le_dec (snd p) (snd q)) as [Hlt|Hle].
    + constructor; [now apply IH|].
      apply Forall_forall. intros x Hx.
      apply (Permutation_in _ (insert_desc_perm p l)) in Hx.
      destruct Hx as [<-|Hx].
      * unfold not_below. now apply Qlt_le_weak.
      * rewrite Forall_forall in Hq. now apply Hq.
    + constructor; [exact H|]. constructor; [exact Hle|].
      apply Forall_forall. intros x Hx. rewrite Forall_forall in Hq.
      unfold not_below in *. apply Qle_trans with (snd q); [|exact Hle].
      now apply Hq.
Qed.

Lemma sort_desc_sorted (l : list (string * Q)) :
  StronglySorted not_below (fold_right insert_desc [] l).
Proof.
  induction l as [|a l IH]; simpl; [constructor|].
  now apply insert_desc_sorted.
Qed.

Lemma sorted_app_cross {A} (R : A -> A -> Prop) (l1 l2 : list A) :
  StronglySorted R (l1 ++ l2) ->
  forall x y, In x l1 -> In y l2 -> R x y.
Proof.
  induction l1 as [|a l1 IH]; intros H x y Hx Hy; [destruct Hx|].
  simpl in H. inversion H as [|? ? Hs Ha]; subst.
  destruct Hx as [<-|Hx]; [|now apply IH].
  rewrite Forall_forall in Ha. apply Ha. apply in_or_app. now right.
Qed.

Lemma unique_acc_NoDup (xs seen : list string) :
  NoDup seen ->
  NoDup (fold_left (fun seen x => if existsb (String.eqb x) seen then seen
                                  else seen ++ [x]) xs seen).
Proof.
  revert seen; induction xs as [|x xs IH]; intros seen H; simpl; [exact H|].
  apply IH. destruct (existsb (String.eqb x) seen) eqn:E; [exact H|].
  apply NoDup_app; [exact H | repeat constructor; intros [] |].
  intros y Hy [<-|[]]. apply existsb_eqb_In in Hy. congruence.
Qed.

Lemma unique_NoDup (xs : list string) : NoDup (unique xs).
Proof. apply unique_acc_NoDup. constructor. Qed.

Lemma son_5yil_In (df : frame) (r : row) :
  In r (son_5yil df) -> In r df.
Proof.
  unfold son_5yil. destruct (Yil_max df); [|intros []].
  intros H. now apply filter_In in H.
Qed.

Lemma son_5yil_not_nil (df : frame) : df <> [] -> son_5yil df <> [].
Proof.
  intros Hne. unfold son_5yil.
  destruct (Yil_max df) as [last|] eqn:E.
  - destruct (Yil_max_spec df last E) as [(r & Hin & Hr) _].
    intros Hf.
    assert (Hr' : In r (filter (fun r => Yil r >=? last - 4) df)).
    { apply filter_In. split; [exact Hin|].
      apply Z.geb_le. lia. }
    rewrite Hf in Hr'. destruct Hr'.
  - destruct df; [contradiction | discriminate].
Qed.

Lemma firstn_NoDup {A} (n : nat) (l : list A) : NoDup l -> NoDup (firstn n l).
Proof.
  revert n; induction l as [|a l IH]; intros n H; destruct n; simpl;
    try constructor.
  - inversion H as [|? ? Hn Hl]; subst. intros Hin. apply Hn.
    revert Hin. clear. revert n. induction l as [|b l IH]; intros n;
      destruct n; simpl; try tauto.
    intros [->|H]; [now left | right; eauto].
  - inversion H; subst. now apply IH.
Qed.

Lemma firstn_In {A} (n : nat) (l : list A) (x : A) :
  In x (firstn n l) -> In x l.
Proof.
  intros H. rewrite <- (firstn_skipn n l). apply in_or_app. now left.
Qed.

Section TopTen.
Variable df : frame.

Lemma labels_NoDup : NoDup (recent_labels df).
Proof.
  apply (Permutation_NoDup (Permutation_sym (sort_labels_perm _))).
  apply unique_NoDup.
Qed.

Lemma labels_In (a : string) :
  In a (recent_labels df) <-> In a (map Alan (son_5yil df)).
Proof.
  unfold recent_labels. split; intros H.
  - apply unique_In.
    exact (Permutation_in _ (sort_labels_perm _) H).
  - apply unique_In in H.
    exact (Permutation_in _ (Permutation_sym (sort_labels_perm _)) H).
Qed.

Lemma ranking_fst : Permutation (map fst (ranking df)) (recent_labels df).
Proof.
  unfold ranking. rewrite (sort_desc_perm (recent_means df)).
  unfold recent_means. rewrite map_map. simpl. now rewrite map_id.
Qed.

Lemma ranking_In (p : string * Q) :
  In p (ranking df) ->
  snd p = recent_mean df (fst p) /\ In (fst p) (recent_labels df).
Proof.
  intros H. apply (Permutation_in _ (sort_desc_perm _)) in H.
  unfold recent_means in H. apply in_map_iff in H.
  destruct H as (a & <- & Ha). auto.
Qed.

Lemma top_ranking : top_alanlar df = map fst (firstn 10 (ranking df)).
Proof. reflexivity. Qed.

Lemma top_alanlar_props :
  (List.length (top_alanlar df)
   = Nat.min 10 (List.length (unique (map Alan (son_5yil df)))))
  /\ NoDup (top_alanlar df)
  /\ (forall a, In a (top_alanlar df) -> In a (map Alan (son_5yil df)))
  /\ (forall a b,
        In a (top_alanlar df) ->
        In b (map Alan (son_5yil df)) ->
        ~ In b (top_alanlar df) ->
        (recent_mean df b <= recent_mean df a)%Q).
Proof.
  rewrite top_ranking. split; [|split; [|split]].
  - rewrite length_map, length_firstn.
    rewrite <- (length_map fst (ranking df)).
    rewrite (Permutation_length ranking_fst).
    unfold recent_labels.
    now rewrite (Permutation_length (sort_labels_perm _)).
  - rewrite <- firstn_map. apply firstn_NoDup.
    apply (Permutation_NoDup (Permutation_sym ranking_fst)).
    apply labels_NoDup.
  - intros a H. rewrite <- firstn_map in H. apply firstn_In in H.
    apply (Permutation_in _ ranking_fst) in H. now apply labels_In.
  - intros a b Ha Hb Hnb.
    apply in_map_iff in Ha. destruct Ha as (p & <- & Hp).
    apply labels_In in Hb.
    apply (Permutation_in _ (Permutation_sym ranking_fst)) in Hb.
    apply in_map_iff in Hb. destruct Hb as (q & <- & Hq).
    rewrite <- (firstn_skipn 10 (ranking df)) in Hq.
    apply in_app_or in Hq. destruct Hq as [Hq|Hq].
    { exfalso. apply Hnb. now apply in_map. }
    pose proof (sort_desc_sorted (recent_means df)) as Hs.
    fold (ranking df) in Hs.
    rewrite <- (firstn_skipn 10 (ranking df)) in Hs.
    pose proof (sorted_app_cross _ _ _ Hs p q Hp Hq) as Hpq.
    unfold not_below in Hpq.
    destruct (ranking_In p) as [Ep _]; [now apply firstn_In in Hp|].
    destruct (ranking_In q) as [Eq _].
    { rewrite <- (firstn_skipn 10 (ranking df)).
      apply in_or_app. now right. }
    now rewrite <- Ep, <- Eq.
Qed.

Lemma top_alanlar_labels (a : string) :
  In a (top_alanlar df) -> In a (map Alan df).
Proof.
  intros H. apply top_alanlar_props in H. apply in_map_iff in H.
  destruct H as (r & <- & Hr). apply in_map. now apply son_5yil_In.
Qed.

Lemma top_alanlar_not_nil : df <> [] -> top_alanlar df <> [].
Proof.
  intros Hne E. destruct top_alanlar_props as (Hlen & _).
  rewrite E in Hlen. simpl in Hlen.
  pose proof (son_5yil_not_nil df Hne) as Hs.
  destruct (son_5yil df) as [|r rs] eqn:Er; [contradiction|].
  assert (Hin : In (Alan r) (unique (map Alan (r :: rs)))).
  { apply unique_In. now left. }
  destruct (unique (map Alan (r :: rs))); [destruct Hin|].
  simpl in Hlen. lia.
Qed.
End TopTen.

(** X11.  The top-10 list holds min(10, number of subjects of the
    last five years) labels, without repetition; each has a row within
    four years of the last year; and a subject of those years that is left
    out has a mean no larger than any subject in the list. *)
Theorem top_alanlar_ranked (df : frame) :
  (List.length (top_alanlar df)
   = Nat.min 10 (List.length (unique (map Alan (son_5yil df)))))
  /\ NoDup (top_alanlar df)
  /\ (forall a, In a (top_alanlar df) ->
                exists r, In r df /\ Alan r = a
                          /\ forall r', In r' df -> Yil r' - 4 <= Yil r)
  /\ (forall a b,
        In a (top_alanlar df) ->
        In b (map Alan (son_5yil df)) ->
        ~ In b (top_alanlar df) ->
        (recent_mean df b <= recent_mean df a)%Q).
Proof.
  destruct (top_alanlar_props df) as (H1 & H2 & H3 & H4).
  split; [exact H1|]. split; [exact H2|]. split; [|exact H4].
  intros a Ha. apply H3 in Ha. apply in_map_iff in Ha.
  destruct Ha as (r & <- & Hr). exists r. unfold son_5yil in Hr.
  destruct (Yil_max df) as [last|] eqn:E; [|destruct Hr].
  apply filter_In in Hr. destruct Hr as [Hin Hy].
  split; [exact Hin|]. split; [reflexivity|].
  intros r' Hr'. destruct (Yil_max_spec df last E) as [_ Hmax].
  apply Z.geb_le in Hy. specialize (Hmax r' Hr'). lia.
Qed.

(** X12.  On a table that is not empty, mode 1 reads no input and
    matches every label of its top-10 list: the matched list is as long as
    the top-10 list and not empty, so the "no match" branch is not taken
    in mode 1. *)
Theorem top_mode_never_empty {rt : PyRuntime} (df : frame)
    (ins : list input_ev) :
  df <> [] ->
  exists tr eslesen,
    select_subjects df (alan_mapping df) "1" ins = Done tr (Some eslesen) ins
    /\ List.length eslesen = List.length (top_alanlar df)
    /\ eslesen <> [].
Proof.
  intros Hne. unfold select_subjects.
  cbn [String.eqb Ascii.eqb Bool.eqb andb]. rewrite say_bind.
  unfold ret. cbn [emit]. eexists. eexists. split; [reflexivity|].
  assert (Hlen : List.length
                   (st_eslesen (match_top df (alan_mapping df)
                                          (top_alanlar df)))
                 = List.length (top_alanlar df)).
  { unfold match_top. rewrite match_top_fold. simpl.
    pose proof (top_alanlar_labels df) as Hl.
    induction (top_alanlar df) as [|a l IH]; simpl; [reflexivity|].
    rewrite length_app, IH by (intros x Hx; apply Hl; now right).
    destruct (label_matches df a) as [v Hv]; [apply Hl; now left|].
    unfold matched. rewrite Hv. reflexivity. }
  split; [exact Hlen|]. intros E. rewrite E in Hlen. simpl in Hlen.
  pose proof (top_alanlar_not_nil df Hne) as Hn.
  destruct (top_alanlar df); [contradiction | discriminate].
Qed.

Lemma top_mode_never_empty_witness :
  exists tr eslesen,
    @select_subjects AsciiRuntime.runtime df_single
      (@alan_mapping AsciiRuntime.runtime df_single) "1" [Line "x"]
    = Done tr (Some eslesen) [Line "x"]
    /\ List.length eslesen = List.length (top_alanlar df_single)
    /\ eslesen <> [].
Proof.
  apply (@top_mode_never_empty AsciiRuntime.runtime df_single [Line "x"]).
  discriminate.
Defined.

Section Entries.
Context {rt : PyRuntime}.

Lemma forecast_one_entry (df : frame) (hedef_yil : Z)
    (model_sec alan : string) (tr : list event) (t : tahmin) :
  forecast_one df hedef_yil model_sec alan = (tr, Some t) ->
  t_alan t = alan /\ t_yil t = hedef_yil /\ t_model_sec t = model_sec
  /\ 0 <= t_sonuc t
  /\ (2 <= List.length (rows_of df alan))%nat
  /\ (exists fit, In fit tr /\ (fit = FitLm alan \/ fit = FitProphet alan)).
Proof.
  unfold forecast_one.
  destruct (rows_of df alan) as [|r rs]; [discriminate|].
  rewrite length_map.
  destruct (Z.of_nat (List.length (r :: rs)) <? 2) eqn:E; [discriminate|].
  apply Z.ltb_ge in E.
  destruct (String.eqb model_sec "lm").
  - destruct (Z.of_nat _ <? 2); [discriminate|].
    intros [= <- <-]. cbn [t_alan t_yil t_model_sec t_sonuc].
    split; [reflexivity|]. split; [reflexivity|]. split; [reflexivity|].
    split; [apply py_round_nonneg, clamp0_nonneg|]. split; [lia|].
    exists (FitLm alan). split; [now left | now left].
  - destruct (filter _ _) as [|p ps] eqn:Ef; [discriminate|].
    intros [= <- <-]. cbn [t_alan t_yil t_model_sec t_sonuc].
    split; [reflexivity|]. split; [reflexivity|]. split; [reflexivity|].
    split; [|split; [lia|]].
    + apply py_round_nonneg.
      pose proof (in_eq p ps) as Hp. rewrite <- Ef in Hp.
      apply filter_In in Hp. destruct Hp as [Hp _].
      apply in_map_iff in Hp. destruct Hp as (q & <- & _).
      apply clamp0_nonneg.
    + exists (FitProphet alan). split; [now left | now right].
Qed.

Lemma forecast_all_member (df : frame) (hedef_yil : Z) (model_sec : string)
    (eslesen : list string) (t : tahmin) :
  In t (snd (forecast_all df hedef_yil model_sec eslesen)) ->
  In (t_alan t) eslesen.
Proof.
  induction eslesen as [|alan rest IH]; [intros []|].
  rewrite forecast_all_cons. cbn [snd].
  destruct (forecast_one df hedef_yil model_sec alan) as [tr [t'|]] eqn:E;
    cbn [snd].
  - intros [<-|Hin]; [|right; now apply IH].
    left. symmetry. now apply forecast_one_entry in E.
  - intros Hin. right. now apply IH.
Qed.

Lemma forecast_all_length (df : frame) (hedef_yil : Z) (model_sec : string)
    (eslesen : list string) :
  (List.length (snd (forecast_all df hedef_yil model_sec eslesen))
   <= List.length eslesen)%nat.
Proof.
  induction eslesen as [|alan rest IH]; [simpl; lia|].
  rewrite forecast_all_cons. cbn [snd].
  destruct (snd (forecast_one df hedef_yil model_sec alan)); simpl; lia.
Qed.
End Entries.

(** X13.  The result list is never longer than the list of subjects,
    and every entry names one of the subjects, carries the target year and
    the model key of the run, a count that is not negative, and a subject
    with at least two rows. *)
Theorem forecast_entries {rt : PyRuntime} (df : frame) (hedef_yil : Z)
    (model_sec : string) (eslesen : list string) :
  (List.length (snd (forecast_all df hedef_yil model_sec eslesen))
   <= List.length eslesen)%nat
  /\ forall t, In t (snd (forecast_all df hedef_yil model_sec eslesen)) ->
       In (t_alan t) eslesen
       /\ t_yil t = hedef_yil
       /\ t_model_sec t = model_sec
       /\ 0 <= t_sonuc t
       /\ (2 <= List.length (rows_of df (t_alan t)))%nat.
Proof.
  split; [apply forecast_all_length|]. intros t Hin.
  split; [now apply forecast_all_member in Hin|].
  destruct (forecast_all_entries _ _ _ _ _ Hin) as [tr Ht].
  apply forecast_one_entry in Ht. tauto.
Qed.

Section Line.
Local Open Scope Q_scope.

Lemma on_line_sums (l : list (Q * Q)) (a b : Q) :
  (forall p, In p l -> snd p == a * fst p + b) ->
  s_xy l == a * s_xx l + b * s_x l /\ s_y l == a * s_x l + cnt l * b.
Proof.
  induction l as [|p l IH]; intros H.
  - unfold s_xy, s_xx, s_x, s_y, cnt. simpl. split; ring.
  - destruct IH as [IH1 IH2]; [intros q Hq; apply H; now right|].
    rewrite cnt_cons, s_x_cons, s_y_cons, s_xx_cons, s_xy_cons.
    rewrite IH1, IH2, (H p) by now left. split; ring.
Qed.

Lemma polyfit1_on_line (l : list (Q * Q)) (a b : Q) :
  0 < cnt l -> 0 < spread l ->
  (forall p, In p l -> snd p == a * fst p + b) ->
  let coef := polyfit1 (map fst l) (map snd l) in
  fst coef == a /\ snd coef == b.
Proof.
  intros Hn Hd Hl. destruct (on_line_sums l a b Hl) as [E1 E2].
  unfold polyfit1. rewrite combine_fst_snd, length_map.
  fold (cnt l) (s_x l) (s_y l) (s_xx l) (s_xy l). cbn [fst snd].
  unfold spread in Hd. rewrite E1, E2.
  split; field; try split; lra.
Qed.

Lemma py_round_comp (x y : Q) : x == y -> py_round x = py_round y.
Proof.
  intros H. unfold py_round. cbv zeta. rewrite (Qfloor_comp _ _ H).
  assert (E : (x - inject_Z (Qfloor y) ?= 1 # 2)
              = (y - inject_Z (Qfloor y) ?= 1 # 2)) by now rewrite H.
  now rewrite E.
Qed.

Lemma py_round_inject (z : Z) : py_round (inject_Z z) = z.
Proof.
  unfold py_round. cbv zeta. rewrite Qfloor_Z.
  assert (E : (inject_Z z - inject_Z z ?= 1 # 2) = Lt).
  { apply (proj1 (Qlt_alt _ _)). lra. }
  now rewrite E.
Qed.

Lemma clamp0_inject (z : Z) : clamp0 (inject_Z z) == inject_Z (Z.max 0 z).
Proof.
  unfold clamp0. destruct (Qlt_le_dec 0 (inject_Z z)) as [H|H].
  - change 0 with (inject_Z 0) in H. rewrite <- Zlt_Qlt in H.
    now rewrite Z.max_r by lia.
  - change 0 with (inject_Z 0) in H. rewrite <- Zle_Qle in H.
    now rewrite Z.max_l by lia.
Qed.

Lemma clamp0_comp (x y : Q) : x == y -> clamp0 x == clamp0 y.
Proof.
  intros H. unfold clamp0.
  destruct (Qlt_le_dec 0 x), (Qlt_le_dec 0 y); lra.
Qed.
End Line.

(** X14.  When the counts of a subject lie on a line
    [a * year + b] and there are two distinct years, the [lm] forecast for
    any target year is [max(0, a * target + b)]. *)
Theorem lm_exact_on_line {rt : PyRuntime} (df : frame) (hedef_yil : Z)
    (alan : string) (a b : Z) :
  (2 <= List.length (np_unique (map Yil (rows_of df alan))))%nat ->
  (forall r, In r (rows_of df alan) -> YayinSayisi r = a * Yil r + b) ->
  option_map t_sonuc (snd (forecast_one df hedef_yil "lm" alan))
  = Some (Z.max 0 (a * hedef_yil + b)).
Proof.
  intros H2 Hline.
  assert (H2' : (2 <= List.length
                        (np_unique
                           (map fst (map (fun r => (Yil r, YayinSayisi r))
                                         (rows_of df alan)))))%nat).
  { rewrite map_map. exact H2. }
  rewrite (forecast_one_lm df hedef_yil alan H2'). cbn [snd option_map t_sonuc].
  f_equal.
  set (series := map (fun r => (Yil r, YayinSayisi r)) (rows_of df alan)).
  fold series in H2'.
  rewrite <- (as_points_fst series), <- (as_points_snd series).
  destruct (nodup_two _ H2') as (u & v & Hu & Hv & Hne).
  apply in_map_iff in Hu. destruct Hu as (p & <- & Hp).
  apply in_map_iff in Hv. destruct Hv as (q & <- & Hq).
  destruct (polyfit1_on_line (as_points series) (inject_Z a) (inject_Z b))
    as [Ea Eb].
  - destruct series as [|r series']; [destruct Hp|]. apply cnt_pos.
  - apply (spread_pos _ (inject_Z (fst p), inject_Z (snd p))
                        (inject_Z (fst q), inject_Z (snd q))).
    + apply (in_map (fun p => (inject_Z (fst p), inject_Z (snd p)))).
      exact Hp.
    + apply (in_map (fun p => (inject_Z (fst p), inject_Z (snd p)))).
      exact Hq.
    + cbn [fst]. intros E. apply Hne. now apply inject_Z_injective.
  - intros pt Hpt. unfold as_points in Hpt. apply in_map_iff in Hpt.
    destruct Hpt as (s & <- & Hs). cbn [fst snd].
    unfold series in Hs. apply in_map_iff in Hs.
    destruct Hs as (r & <- & Hr). cbn [fst snd].
    rewrite (Hline r Hr), inject_Z_plus, inject_Z_mult. reflexivity.
  - rewrite <- (py_round_inject (Z.max 0 (a * hedef_yil + b))).
    apply py_round_comp. rewrite <- clamp0_inject. apply clamp0_comp.
    unfold polyval1. rewrite Ea, Eb, inject_Z_plus, inject_Z_mult.
    reflexivity.
Qed.

Lemma lm_exact_on_line_witness :
  option_map t_sonuc
    (snd (@forecast_one AsciiRuntime.runtime df_linear 2026 "lm"
                        "Chemistry")) = Some 110
  /\ option_map t_sonuc
       (snd (@forecast_one AsciiRuntime.runtime df_falling 2030 "lm"
                           "Mining")) = Some 0.
Proof.
  split.
  - apply (@lm_exact_on_line AsciiRuntime.runtime df_linear 2026
             "Chemistry" 10 (-20150)).
    + vm_compute. lia.
    + intros r [<-|[<-|[<-|[<-|[<-|[]]]]]]; reflexivity.
  - apply (@lm_exact_on_line AsciiRuntime.runtime df_falling 2030
             "Mining" (-10) 20250).
    + vm_compute. lia.
    + intros r [<-|[<-|[<-|[]]]]; reflexivity.
Defined.

Lemma bind_Done_inv {A B} (m : console A) (k : A -> console B)
    (ins rest : list input_ev) (tr : list event) (b : B) :
  bind m k ins = Done tr b rest ->
  exists tr1 a mid tr2,
    m ins = Done tr1 a mid /\ k a mid = Done tr2 b rest /\ tr = tr1 ++ tr2.
Proof.
  unfold bind. destruct (m ins) as [tr1 a mid|tr1 why]; [|discriminate].
  intros H. apply emit_Done_inv in H. destruct H as (tr2 & H & ->).
  exists tr1, a, mid, tr2. auto.
Qed.

Lemma reads_shrinks {A} (m : console A) : reads m -> shrinks m.
Proof. intros H ins tr a rest E. specialize (H _ _ _ _ E). lia. Qed.

Lemma shrinks_bind {A B} (m : console A) (k : A -> console B) :
  shrinks m -> (forall a, shrinks (k a)) -> shrinks (bind m k).
Proof.
  intros Hm Hk ins tr b rest E. apply bind_Done_inv in E.
  destruct E as (tr1 & a & mid & tr2 & E1 & E2 & _).
  specialize (Hm _ _ _ _ E1). specialize (Hk _ _ _ _ _ E2). lia.
Qed.

Lemma reads_bind_l {A B} (m : console A) (k : A -> console B) :
  reads m -> (forall a, shrinks (k a)) -> reads (bind m k).
Proof.
  intros Hm Hk ins tr b rest E. apply bind_Done_inv in E.
  destruct E as (tr1 & a & mid & tr2 & E1 & E2 & _).
  specialize (Hm _ _ _ _ E1). specialize (Hk _ _ _ _ _ E2). lia.
Qed.

Lemma reads_bind_r {A B} (m : console A) (k : A -> console B) :
  shrinks m -> (forall a, reads (k a)) -> reads (bind m k).
Proof.
  intros Hm Hk ins tr b rest E. apply bind_Done_inv in E.
  destruct E as (tr1 & a & mid & tr2 & E1 & E2 & _).
  specialize (Hm _ _ _ _ E1). specialize (Hk _ _ _ _ _ E2). lia.
Qed.

Lemma shrinks_say (tr : list event) : shrinks (say tr).
Proof. intros ins tr' a rest [= _ _ <-]. lia. Qed.

Lemma shrinks_ret {A} (a : A) : shrinks (ret a).
Proof. intros ins tr' a' rest [= _ _ <-]. lia. Qed.

Lemma shrinks_stop {A} (why : halt) : shrinks (@stop A why).
Proof. intros ins tr a rest E. discriminate. Qed.

Lemma suffix_shorter (consumed rest : list input_ev) (ev : input_ev) :
  (List.length rest < List.length (consumed ++ ev :: rest))%nat.
Proof. rewrite length_app. simpl. lia. Qed.

Section Progress.
Context {rt : PyRuntime}.

Lemma reads_ask_choice p options default :
  reads (ask_choice p options default).
Proof.
  intros ins tr a rest E. unfold ask_choice in E.
  apply ask_choice_loop_returns in E. destruct E as (c & raw & -> & _).
  apply suffix_shorter.
Qed.

Lemma reads_ask_yesno p default : reads (ask_yesno p default).
Proof.
  intros ins tr a rest E. apply ask_yesno_returns_aux in E.
  destruct E as (c & raw & -> & _). apply suffix_shorter.
Qed.

Lemma reads_ask_hedef_yil lo hi : reads (ask_hedef_yil lo hi).
Proof.
  intros ins tr a rest E. unfold ask_hedef_yil in E.
  apply ask_int_returns in E. destruct E as (c & raw & -> & _).
  apply suffix_shorter.
Qed.

Lemma reads_ask_alan_input : reads ask_alan_input.
Proof.
  intros ins tr a rest E. apply ask_alan_input_returns_aux in E.
  destruct E as (_ & c & raw & -> & _). apply suffix_shorter.
Qed.

Lemma shrinks_select_subjects df m secim :
  shrinks (select_subjects df m secim).
Proof.
  unfold select_subjects. destruct (String.eqb secim "1").
  - apply shrinks_bind; [apply shrinks_say | intros; apply shrinks_ret].
  - destruct (String.eqb secim "2").
    + apply shrinks_bind; [apply reads_shrinks, reads_ask_yesno|].
      intros a. apply shrinks_bind.
      * destruct (String.eqb a "evet");
          [apply shrinks_say | apply shrinks_ret].
      * intros _. apply shrinks_bind;
          [apply reads_shrinks, reads_ask_alan_input|].
        intros; apply shrinks_ret.
    + apply shrinks_bind; [apply shrinks_say | intros; apply shrinks_ret].
Qed.

Lemma reads_matching_stage df : reads (matching_stage df).
Proof.
  unfold matching_stage. apply reads_bind_r; [apply shrinks_say|].
  intros _. apply reads_bind_l; [apply reads_ask_choice|].
  intros secim. apply shrinks_select_subjects.
Qed.

Lemma shrinks_forecast_stage df lo hi eslesen :
  shrinks (forecast_stage df lo hi eslesen).
Proof.
  unfold forecast_stage. apply shrinks_bind; [apply shrinks_say|].
  intros _. apply shrinks_bind; [apply reads_shrinks, reads_ask_hedef_yil|].
  intros hedef. apply shrinks_bind; [apply reads_shrinks, reads_ask_choice|].
  intros model_sec. destruct (forecast_all df hedef model_sec eslesen).
  apply shrinks_bind; [apply shrinks_say | intros; apply shrinks_ret].
Qed.

Lemma shrinks_closing_stage results : shrinks (closing_stage results).
Proof.
  unfold closing_stage, save_stage, repeat_stage, repeat_prompt.
  apply shrinks_bind.
  - destruct results; [apply shrinks_say|].
    apply shrinks_bind; [apply reads_shrinks, reads_ask_yesno|].
    intros a. destruct (String.eqb a "evet"); apply shrinks_say.
  - intros _. apply shrinks_bind; [apply shrinks_say|].
    intros _. apply shrinks_bind; [apply reads_shrinks, reads_ask_yesno|].
    intros a. destruct (String.eqb a "evet"); [apply shrinks_say|].
    apply shrinks_bind; [apply shrinks_say | intros; apply shrinks_stop].
Qed.

Lemma reads_loop_body df lo hi : reads (loop_body df lo hi).
Proof.
  unfold loop_body. apply reads_bind_l; [apply reads_matching_stage|].
  intros [[|alan rest]|]; [apply shrinks_say| |apply shrinks_ret].
  apply shrinks_bind; [apply shrinks_forecast_stage|].
  intros results. apply shrinks_closing_stage.
Qed.
End Progress.

(** X15.  Every pass of the menu loop that ends in a [continue] has
    read at least one answer: after [passes] passes at least [passes]
    answers are gone. *)
Theorem menu_loop_reads {rt : PyRuntime} (passes : nat) (df : frame)
    (lo hi : Z) (ins rest : list input_ev) (tr : list event) (u : unit) :
  menu_loop passes df lo hi ins = Done tr u rest ->
  (passes + List.length rest <= List.length ins)%nat.
Proof.
  revert ins tr. induction passes as [|n IH]; intros ins tr H.
  - injection H as _ _ <-. simpl. lia.
  - cbn [menu_loop] in H. apply bind_Done_inv in H.
    destruct H as (tr1 & a & mid & tr2 & E1 & E2 & _).
    apply reads_loop_body in E1. apply IH in E2. lia.
Qed.

Lemma menu_loop_reads_witness :
  (2 + List.length [Line "lm"] <= List.length
     [Line "2"; Line ""; Line "zzz"; Line "2"; Line ""; Line "art";
      Line "lm"])%nat.
Proof.
  eapply (@menu_loop_reads AsciiRuntime.runtime 2 df_single 2025 2124
            [Line "2"; Line ""; Line "zzz"; Line "2"; Line ""; Line "art";
             Line "lm"] [Line "lm"] _ tt).
  reflexivity.
Defined.

(** X16.  The selection stage never ends in the "invalid
    selection" branch of line 425: whenever it returns, it returns a list
    of matched subjects. *)
Theorem matching_stage_selects {rt : PyRuntime} (df : frame)
    (ins rest : list input_ev) (tr : list event)
    (sel : option (list string)) :
  matching_stage df ins = Done tr sel rest ->
  exists eslesen_alanlar, sel = Some eslesen_alanlar.
Proof.
  unfold matching_stage. intros H.
  apply bind_Done_inv in H.
  destruct H as (tr1 & [] & mid & tr2 & _ & E2 & _).
  apply bind_Done_inv in E2.
  destruct E2 as (tr3 & secim & mid2 & tr4 & E3 & E4 & _).
  unfold ask_choice in E3. apply ask_choice_loop_returns in E3.
  destruct E3 as (c & raw & _ & [[_ Hd]|Hd]); [discriminate|].
  unfold dict_comprehension in Hd. apply fold_set_get in Hd.
  destruct Hd as [Hd|(o & Ho & _ & <-)]; [discriminate|].
  unfold select_subjects in E4.
  destruct Ho as [<-|[<-|[]]];
    cbn [String.eqb Ascii.eqb Bool.eqb andb] in E4.
  - apply bind_Done_inv in E4.
    destruct E4 as (t1 & [] & m1 & t2 & _ & F2 & _).
    injection F2 as _ <- _. eauto.
  - apply bind_Done_inv in E4.
    destruct E4 as (t1 & a & m1 & t2 & _ & F2 & _).
    apply bind_Done_inv in F2.
    destruct F2 as (t3 & [] & m2 & t4 & _ & F4 & _).
    apply bind_Done_inv in F4.
    destruct F4 as (t5 & ai & m3 & t6 & _ & F6 & _).
    injection F6 as _ <- _. eauto.
Qed.

Lemma matching_stage_selects_witness :
  exists eslesen_alanlar, Some ["Chemistry"] = Some eslesen_alanlar.
Proof.
  eapply (@matching_stage_selects AsciiRuntime.runtime df_single
            [Line "3"; Line "2"; Line ""; Line "chemistry"] []).
  reflexivity.
Defined.

Section Saving.
Context {rt : PyRuntime}.

Lemma save_charts_figs (results : list tahmin) :
  filter is_savefig (save_charts results)
  = map (fun t => SaveFig (t_alan t) (t_yil t)) results.
Proof.
  unfold save_charts. induction results as [|t results IH];
    [reflexivity|].
  simpl. now rewrite IH.
Qed.
End Saving.

(** X17.  With a result list that is not empty, charts are written
    only on a yes: one figure per entry, in order; a no or an empty answer
    writes nothing and prints that the charts were not saved. *)
Theorem save_stage_on_yes_only {rt : PyRuntime} (t : tahmin)
    (more : list tahmin) (raw : string) (rest : list input_ev) :
  (dict_get yesno_mapping (lower (strip raw)) = Some "evet" ->
   exists tr,
     save_stage (t :: more) (Line raw :: rest) = Done tr tt rest
     /\ filter is_savefig tr
        = map (fun t => SaveFig (t_alan t) (t_yil t)) (t :: more))
  /\ (lower (strip raw) = ""
      \/ dict_get yesno_mapping (lower (strip raw)) = Some "hayır" ->
      save_stage (t :: more) (Line raw :: rest)
      = Done [Prompt PSave; Print MNotSaved; Print MSeparator] tt rest).
Proof.
  split.
  - intros H. exists (Prompt PSave :: save_charts (t :: more)).
    split; [|cbn [filter is_savefig]; apply save_charts_figs].
    unfold save_stage, bind. cbn [ask_yesno]. cbv zeta.
    destruct (String.eqb (lower (strip raw)) "") eqn:E.
    + apply String.eqb_eq in E. rewrite E in H. discriminate.
    + rewrite H. reflexivity.
  - intros H. unfold save_stage, bind. cbn [ask_yesno]. cbv zeta.
    destruct H as [H|H].
    + rewrite H. reflexivity.
    + destruct (String.eqb (lower (strip raw)) "") eqn:E; [reflexivity|].
      rewrite H. reflexivity.
Qed.

(** X18.  For a last observed year inside the queried window
    [YEAR_MIN, YEAR_MAX], the default of the year prompt is
    [TARGET_DEFAULT], and every year the prompt returns, typed or default,
    lies in the allowed range and after the last observed year. *)
Theorem target_year_in_range {rt : PyRuntime} (last : Z)
    (ins rest : list input_ev) (tr : list event) (hedef_yil : Z) :
  YEAR_MIN <= last <= YEAR_MAX ->
  ask_hedef_yil (ALLOWED_MIN_YEAR last) (ALLOWED_MAX_YEAR last) ins
  = Done tr hedef_yil rest ->
  default_year (ALLOWED_MIN_YEAR last) = TARGET_DEFAULT
  /\ ALLOWED_MIN_YEAR last <= hedef_yil <= ALLOWED_MAX_YEAR last
  /\ 1 <= hedef_yil - last.
Proof.
  unfold YEAR_MIN, YEAR_MAX, ALLOWED_MIN_YEAR, ALLOWED_MAX_YEAR,
    default_year, TARGET_DEFAULT.
  intros Hl H. unfold ask_hedef_yil in H. apply ask_int_returns in H.
  destruct H as (c & raw & _ & [[_ Hd]|[_ Hr]]).
  - injection Hd as <-. unfold default_year, TARGET_DEFAULT,
      ALLOWED_MIN_YEAR. lia.
  - lia.
Qed.

Lemma target_year_in_range_witness :
  default_year (ALLOWED_MIN_YEAR 2024) = TARGET_DEFAULT
  /\ ALLOWED_MIN_YEAR 2024 <= 2026 <= ALLOWED_MAX_YEAR 2024
  /\ 1 <= 2026 - 2024.
Proof.
  eapply (@target_year_in_range AsciiRuntime.runtime 2024
            [Line "1999"; Line ""; Line "lm"] [Line "lm"]).
  - unfold YEAR_MIN, YEAR_MAX. lia.
  - reflexivity.
Defined.

Lemma regular_stop_app (t tr : list event) (why : halt) :
  regular_stop tr why -> regular_stop (t ++ tr) why.
Proof.
  destruct why; simpl; [tauto| |]; intros [tr' ->]; exists (t ++ tr');
    now rewrite app_assoc.
Qed.

Lemma stops_emit {A} (t : list event) (o : outcome A) :
  stops_regularly o -> stops_regularly (emit t o).
Proof. destruct o; simpl; [tauto|]. apply regular_stop_app. Qed.

Lemma stops_bind {A B} (m : console A) (k : A -> console B)
    (ins : list input_ev) :
  stops_regularly (m ins) ->
  (forall tr a rest, m ins = Done tr a rest -> stops_regularly (k a rest)) ->
  stops_regularly (bind m k ins).
Proof.
  unfold bind. intros Hm Hk.
  destruct (m ins) as [tr a rest|tr why]; [|exact Hm].
  apply stops_emit. now apply (Hk tr).
Qed.

Lemma only_waits_stops {A} (o : outcome A) :
  only_waits o -> stops_regularly o.
Proof. destruct o; simpl; [tauto|]. now intros ->. Qed.

Section Stops.
Context {rt : PyRuntime}.

Lemma ask_yesno_last_prompt (p : prompt) (default : option string)
    (ins rest : list input_ev) (tr : list event) (v : string) :
  ask_yesno p default ins = Done tr v rest ->
  exists tr', tr = tr' ++ [Prompt p].
Proof.
  revert tr. induction ins as [|[s|] ins IH]; intros tr H;
    cbn [ask_yesno] in H; [discriminate| |].
  - cbv zeta in H.
    destruct (if String.eqb (lower (strip s)) "" then default else None).
    + injection H as <- _ _. now exists [].
    + destruct (dict_get yesno_mapping (lower (strip s))).
      * injection H as <- _ _. now exists [].
      * apply emit_Done_inv in H. destruct H as (t & H & ->).
        destruct (IH _ H) as [t' ->].
        exists ([Prompt p; Print MInvalidYesNo] ++ t').
        now rewrite app_assoc.
  - apply emit_Done_inv in H. destruct H as (t & H & ->).
    destruct (IH _ H) as [t' ->].
    exists ([Prompt p; Print MYesNoCancelled] ++ t').
    now rewrite app_assoc.
Qed.

Lemma stops_ask_alan_input (ins : list input_ev) :
  stops_regularly (ask_alan_input ins).
Proof.
  induction ins as [|[s|] ins IH]; cbn [ask_alan_input].
  - exact I.
  - cbv zeta. destruct (String.eqb (strip s) ""); [|exact I].
    now apply stops_emit.
  - simpl. now exists [].
Qed.

Lemma stops_say (tr : list event) (ins : list input_ev) :
  stops_regularly (say tr ins).
Proof. exact I. Qed.

Lemma stops_ret {A} (a : A) (ins : list input_ev) :
  stops_regularly (ret a ins).
Proof. exact I. Qed.

Lemma stops_select_subjects df m secim ins :
  stops_regularly (select_subjects df m secim ins).
Proof.
  unfold select_subjects. destruct (String.eqb secim "1").
  - apply stops_bind; [apply stops_say | intros; apply stops_ret].
  - destruct (String.eqb secim "2").
    + apply stops_bind;
        [apply only_waits_stops, ask_yesno_only_waits|].
      intros t a r _. apply stops_bind.
      * destruct (String.eqb a "evet"); [apply stops_say | apply stops_ret].
      * intros t1 a1 r1 _. apply stops_bind; [apply stops_ask_alan_input|].
        intros; apply stops_ret.
    + apply stops_bind; [apply stops_say | intros; apply stops_ret].
Qed.

Lemma stops_matching_stage df ins : stops_regularly (matching_stage df ins).
Proof.
  unfold matching_stage. apply stops_bind; [apply stops_say|].
  intros t a r _. apply stops_bind.
  - apply only_waits_stops. apply ask_choice_only_waits.
  - intros. apply stops_select_subjects.
Qed.

Lemma stops_forecast_stage df lo hi eslesen ins :
  stops_regularly (forecast_stage df lo hi eslesen ins).
Proof.
  unfold forecast_stage. apply stops_bind; [apply stops_say|].
  intros t a r _. apply stops_bind.
  { apply only_waits_stops. apply ask_int_only_waits. }
  intros t1 hedef r1 _. apply stops_bind.
  { apply only_waits_stops. apply ask_choice_only_waits. }
  intros t2 model_sec r2 _.
  destruct (forecast_all df hedef model_sec eslesen).
  apply stops_bind; [apply stops_say | intros; apply stops_ret].
Qed.

Lemma stops_repeat_prompt ins : stops_regularly (repeat_prompt ins).
Proof.
  unfold repeat_prompt, bind.
  pose proof (ask_yesno_only_waits PRepeat (Some "hayır") ins) as Hw.
  destruct (ask_yesno PRepeat (Some "hayır") ins) as [tr a rest|tr why] eqn:E.
  - destruct (ask_yesno_last_prompt _ _ _ _ _ _ E) as [tr' ->].
    destruct (String.eqb a "evet"); [exact I|].
    simpl. exists tr'. now rewrite <- app_assoc.
  - simpl in *. now subst.
Qed.

Lemma stops_closing_stage results ins :
  stops_regularly (closing_stage results ins).
Proof.
  unfold closing_stage, save_stage, repeat_stage. apply stops_bind.
  - destruct results as [|entry more]; [apply stops_say|].
    apply stops_bind; [apply only_waits_stops, ask_yesno_only_waits|].
    intros t a r _. destruct (String.eqb a "evet"); apply stops_say.
  - intros t a r _. apply stops_bind; [apply stops_say|].
    intros. apply stops_repeat_prompt.
Qed.

Lemma stops_loop_body df lo hi ins :
  stops_regularly (loop_body df lo hi ins).
Proof.
  unfold loop_body. apply stops_bind; [apply stops_matching_stage|].
  intros t [[|alan more]|] r _; [apply stops_say| |apply stops_ret].
  apply stops_bind; [apply stops_forecast_stage|].
  intros. apply stops_closing_stage.
Qed.
End Stops.

(** X19.  The menu loop stops in three ways only: it waits for
    input; it exits right after the closing question and the termination
    message; or the interrupt at the subject prompt escapes. *)
Theorem menu_loop_stops {rt : PyRuntime} (passes : nat) (df : frame)
    (lo hi : Z) (ins : list input_ev) (tr : list event) (why : halt) :
  menu_loop passes df lo hi ins = Halt tr why ->
  regular_stop tr why.
Proof.
  revert ins tr. induction passes as [|n IH]; intros ins tr H;
    [discriminate|].
  cbn [menu_loop] in H.
  pose proof (stops_loop_body df lo hi ins) as Hb.
  unfold bind in H.
  destruct (loop_body df lo hi ins) as [t a r|t w]; simpl in Hb.
  - destruct (menu_loop n df lo hi r) as [t' a' r'|t' w'] eqn:E;
      [discriminate|].
    injection H as <- <-. apply regular_stop_app. now apply (IH r).
  - injection H as <- <-. exact Hb.
Qed.

Lemma menu_loop_stops_witness :
  regular_stop
    [Print MSeparator; Print MMenuTitle; Print MMenuOption1;
     Print MMenuOption2; Print MSeparator; Prompt PChoice;
     Prompt PShowList; Prompt PSubjects; Print MSeparator;
     Prompt (PYear 2025 2124 2026); Prompt PModel;
     Print (MNotEnoughData "Chemistry"); Print MNoForecasts;
     Print MSeparator; Print MCompleted; Print MSeparator;
     Prompt PRepeat; Print MTerminated; Print MSeparator]
    Exited.
Proof.
  apply (@menu_loop_stops AsciiRuntime.runtime 3 df_single 2025 2124
           [Line "2"; Line ""; Line "chemistry"; Line ""; Line "lm";
            Line ""]).
  reflexivity.
Defined.

(** X20.  When several labels share a lowercase form, the mapping
    stores the one that appears last among the distinct labels of the
    table. *)
Theorem alan_mapping_last_wins {rt : PyRuntime} (df : frame)
    (before after : list string) (alan : string) :
  unique (map Alan df) = before ++ alan :: after ->
  (forall other, In other after -> lower other <> lower alan) ->
  dict_get (alan_mapping df) (lower alan) = Some alan.
Proof.
  intros E Hafter. unfold alan_mapping, dict_comprehension. rewrite E.
  rewrite fold_left_app. cbn [fold_left].
  rewrite fold_set_get_other.
  - rewrite dict_get_set, String.eqb_refl. reflexivity.
  - intros Hin. apply in_map_iff in Hin. destruct Hin as (o & Ho & Hin).
    now apply (Hafter o).
Qed.

Lemma alan_mapping_last_wins_witness :
  dict_get (@alan_mapping AsciiRuntime.runtime df_case)
           (@lower AsciiRuntime.runtime "Chemistry")
  = Some "Chemistry".
Proof.
  apply (@alan_mapping_last_wins AsciiRuntime.runtime df_case ["chemistry"] []).
  - reflexivity.
  - intros other [].
Defined.

(** X21.  The keys of the alias mapping are exactly the lowercase
    forms of the labels of the table. *)
Theorem alan_mapping_keys {rt : PyRuntime} (df : frame) (k : string) :
  In k (dict_keys (alan_mapping df))
  <-> exists alan, In alan (map Alan df) /\ lower alan = k.
Proof.
  unfold alan_mapping, dict_comprehension. rewrite fold_set_keys.
  simpl. rewrite in_map_iff. split.
  - intros [[]|(a & <- & Ha)]. exists a. split; [|reflexivity].
    now apply unique_In.
  - intros (a & Ha & <-). right. exists a. split; [reflexivity|].
    now apply unique_In.
Qed.

(** X22.  An answer at the subject prompt whose pieces between
    commas are all blank yields no token and therefore an empty match
    list. *)
Theorem blank_pieces_match_nothing {rt : PyRuntime} (df : frame)
    (m : dict string) (alan_input : string) :
  (forall piece, In piece (split_comma alan_input) -> strip piece = "") ->
  user_tokens alan_input = []
  /\ st_eslesen (match_user df m (user_tokens alan_input)) = [].
Proof.
  intros H.
  assert (E : user_tokens alan_input = []).
  { unfold user_tokens.
    induction (split_comma alan_input) as [|p l IH]; [reflexivity|].
    simpl. rewrite (H p) by now left. simpl.
    apply IH. intros q Hq. apply H. now right. }
  rewrite E. split; reflexivity.
Qed.

Lemma blank_pieces_match_nothing_witness :
  @user_tokens AsciiRuntime.runtime " , ," = []
  /\ st_eslesen (match_user df_single
                            (@alan_mapping AsciiRuntime.runtime df_single)
                            (@user_tokens AsciiRuntime.runtime " , ,")) = [].
Proof.
  apply (@blank_pieces_match_nothing AsciiRuntime.runtime).
  intros piece [<-|[<-|[<-|[]]]]; reflexivity.
Defined.

Lemma filter_clip (hedef_yil : Z) (l : list (Z * Q)) :
  filter (fun p => fst p =? hedef_yil)
         (map (fun p => (fst p, clamp0 (snd p))) l)
  = map (fun p => (fst p, clamp0 (snd p)))
        (filter (fun p => fst p =? hedef_yil) l).
Proof.
  induction l as [|p l IH]; [reflexivity|].
  simpl. destruct (fst p =? hedef_yil); simpl; now rewrite IH.
Qed.

Lemma son_yil_row (rows : frame) :
  rows <> [] ->
  exists r, In r rows
            /\ Yil r = son_yil (map (fun r => (Yil r, YayinSayisi r)) rows).
Proof.
  destruct rows as [|r0 rows]; [contradiction|]. intros _.
  unfold son_yil. cbn [map fst]. rewrite map_map. cbn [fst].
  destruct (fold_max_in (Yil r0 :: map (fun x => Yil x) rows) (Yil r0))
    as [E|Hin].
  - exists r0. split; [now left | now rewrite E].
  - destruct Hin as [E|Hin].
    + exists r0. split; [now left | exact E].
    + apply in_map_iff in Hin. destruct Hin as (r & E & Hr).
      exists r. split; [now right | exact E].
Qed.

(** X23.  On the Prophet path, for a target year after the last year
    of the table and a subject with at least two rows, the library is
    asked for at least one future period; an entry is recorded exactly
    when the forecast has a row for the target year, with the rounded,
    clamped value of the first such row, and the subject is skipped with a
    warning otherwise. *)
Theorem prophet_periods_positive {rt : PyRuntime} (df : frame)
    (last hedef_yil : Z) (model_sec alan : string) :
  DATA_LAST_YEAR df = Some last ->
  ALLOWED_MIN_YEAR last <= hedef_yil ->
  (2 <= List.length (rows_of df alan))%nat ->
  String.eqb model_sec "lm" = false ->
  let series := map (fun r => (Yil r, YayinSayisi r)) (rows_of df alan) in
  let periods := hedef_yil - son_yil series in
  1 <= periods
  /\ forecast_one df hedef_yil model_sec alan
     = match filter (fun p => fst p =? hedef_yil)
                    (prophet_predict series periods) with
       | [] => ([FitProphet alan; Print (MNoForecastRow alan hedef_yil)],
                None)
       | p :: _ =>
           let sonuc := py_round (clamp0 (snd p)) in
           ([FitProphet alan; Print (MForecast alan hedef_yil sonuc);
             Print MSeparator; Print MSeparator],
            Some (mkTahmin alan hedef_yil sonuc
                    (ProphetArtifact
                       (map (fun p => (fst p, clamp0 (snd p)))
                            (prophet_predict series periods)))
                    model_sec))
       end.
Proof.
  intros Hlast Hmin Hrows Hm series periods. split.
  - destruct (son_yil_row (rows_of df alan)) as (r & Hr & Er).
    { intros E. rewrite E in Hrows. simpl in Hrows. lia. }
    destruct (Yil_max_spec df last Hlast) as [_ Hmax].
    assert (Hin : In r df).
    { unfold rows_of in Hr. now apply filter_In in Hr. }
    specialize (Hmax r Hin). unfold ALLOWED_MIN_YEAR in Hmin.
    unfold periods, series. lia.
  - unfold forecast_one. fold series.
    destruct (rows_of df alan) as [|r rs] eqn:E; [simpl in Hrows; lia|].
    replace (Z.of_nat (List.length series) <? 2) with false
      by (symmetry; apply Z.ltb_ge; unfold series; rewrite length_map; lia).
    rewrite Hm. fold (son_yil series). fold periods.
    rewrite filter_clip.
    destruct (filter (fun p => fst p =? hedef_yil)
                     (prophet_predict series periods)); reflexivity.
Qed.

(** X24.  After any number of refused answers, the first typed
    integer inside the bounds is what [ask_int] returns, and the prompt
    has been shown once per answer read. *)
Theorem ask_int_first_accepted {rt : PyRuntime} (p : prompt)
    (default : option Z) (lo hi y : Z) (bad : list input_ev) (raw : string)
    (rest : list input_ev) :
  Forall (refused_int default lo hi) bad ->
  int_of_str (strip raw) = Some y ->
  lo <= y <= hi ->
  exists tr,
    ask_int p default (Some lo) (Some hi) (bad ++ Line raw :: rest)
    = Done tr y rest
    /\ prompts tr = S (List.length bad).
Proof.
  intros Hbad Hy Hr. induction bad as [|ev bad IH].
  - exists [Prompt p]. split; [|reflexivity]. now apply ask_int_accept.
  - inversion Hbad as [|? ? Hev Hb]; subst.
    destruct (IH Hb) as (tr & Htr & Hn).
    destruct ev as [s|]; cbn [app ask_int]; [cbv zeta|].
    + destruct Hev as [Hne Hs].
      assert (Hd : (if String.eqb (strip s) "" then default else None)
                   = None).
      { destruct Hne as [Hne| ->]; [|now destruct (String.eqb _ _)].
        apply String.eqb_neq in Hne. now rewrite Hne. }
      rewrite Hd. destruct (int_of_str (strip s)) as [v|].
      * cbn [too_small too_large]. destruct (v <? lo) eqn:E1.
        -- rewrite Htr. eexists. split; [reflexivity|].
           rewrite prompts_app, Hn. reflexivity.
        -- apply Z.ltb_ge in E1.
           replace (v >? hi) with true
             by (rewrite Z.gtb_ltb; symmetry; apply Z.ltb_lt; lia).
           rewrite Htr. eexists. split; [reflexivity|].
           rewrite prompts_app, Hn. reflexivity.
      * rewrite Htr. eexists. split; [reflexivity|].
        rewrite prompts_app, Hn. reflexivity.
    + rewrite Htr. eexists. split; [reflexivity|].
      rewrite prompts_app, Hn. reflexivity.
Qed.

Lemma prophet_periods_positive_witness :
  1 <= 2030 - 2024
  /\ option_map t_sonuc
       (snd (@forecast_one AsciiRuntime.runtime df_single 2030 "prophet"
                           "Physics")) = Some 9.
Proof.
  destruct (@prophet_periods_positive AsciiRuntime.runtime df_single 2024
              2030 "prophet" "Physics") as [Hp Hf].
  - reflexivity.
  - unfold ALLOWED_MIN_YEAR. lia.
  - vm_compute. lia.
  - reflexivity.
  - split; [exact Hp|]. rewrite Hf. vm_compute. reflexivity.
Defined.

Lemma ask_int_first_accepted_witness :
  exists tr,
    @ask_int AsciiRuntime.runtime PChoice (Some 2026) (Some 2025) (Some 2124)
             ([Line "abc"; Interrupt; Line "1999"] ++ Line " 2031 " :: [])
    = Done tr 2031 []
    /\ prompts tr = 4%nat.
Proof.
  apply (@ask_int_first_accepted AsciiRuntime.runtime PChoice (Some 2026)
           2025 2124 2031 [Line "abc"; Interrupt; Line "1999"] " 2031 " []).
  - apply Forall_cons; [split; [left; discriminate | exact I]|].
    apply Forall_cons; [exact I|].
    apply Forall_cons; [split; [left; discriminate | left; reflexivity]|].
    apply Forall_nil.
  - reflexivity.
  - lia.
Defined.
